(** * AnalysisPipeline: the action list, the per-target engine and the
      catalog writer of [yt_astro_analysis/halo_analysis/analysis_pipeline.py]

    The Python methods are embedded as functions over explicit state.  A
    method mutates [self] and may raise: it becomes a function from the
    state before the call to a result (a value or the exception) and the
    state at that point, so that what an aborted call has already done
    stays visible. *)

From stdpp Require Import gmap strings list fin_maps pretty sorting.
From Stdlib Require Import ZArith Ascii String.

Local Open Scope string_scope.
Local Open Scope list_scope.

(** ** Exceptions, results, and the state-and-exception monad *)

Inductive exn : Type :=
| RuntimeError (msg : string)
| KeyError (key : string)
| IndexError
| TypeError
| AttributeError (name : string)
| Exception (what : string).

Inductive result (A : Type) : Type :=
| Ok (a : A)
| Raise (e : exn).
Arguments Ok {A} a.
Arguments Raise {A} e.

Definition M (S A : Type) : Type := S -> result A * S.

Definition ret {S A} (a : A) : M S A := fun s => (Ok a, s).
Definition raise {S A} (e : exn) : M S A := fun s => (Raise e, s).
Definition bind {S A B} (m : M S A) (k : A -> M S B) : M S B :=
  fun s => match m s with
           | (Ok a, s') => k a s'
           | (Raise e, s') => (Raise e, s')
           end.
Definition get {S} : M S S := fun s => (Ok s, s).
Definition modify {S} (f : S -> S) : M S unit := fun s => (Ok tt, f s).
Definition lift {S A} (r : result A) : M S A := fun s => (r, s).

Declare Scope py_scope.
Delimit Scope py_scope with py.
Notation "x <- m ;; k" := (bind m (fun x => k))
  (at level 100, m at next level, right associativity) : py_scope.
Notation "m ;;; k" := (bind m (fun _ => k))
  (at level 100, right associativity) : py_scope.
Local Open Scope py_scope.

(** ** Values

    What the engine asks of a value stored as a quantity: its truth value
    (a filter's return is tested with [not]), whether it has a [units]
    attribute, and [convert_to_base()].  The unit system itself belongs to
    yt. *)

Class PyValue (V : Type) : Type := {
  truthy : V -> bool;
  has_units : V -> bool;
  convert_to_base : V -> V
}.

(** A field of the data source: a bare key or a [(field_type, key)] tuple. *)
Inductive field_ref : Type :=
| FieldName (key : string)
| FieldTuple (field_type key : string).

(** A dataset, as handed to [_save] and as held in [self.halos_ds]: a
    [dict], or any other object with its attributes and with or without a
    method [arr].  Of the entries and attributes only ['basename'] is
    read; it holds [None] or a [str]. *)
Inductive dataset : Type :=
| DictDataset (entries : gmap string (option string))
| ObjectDataset (attributes : gmap string (option string)) (with_arr : bool).

(** Whether [ds.arr] can be looked up: a dict has no such attribute. *)
Definition has_arr (ds : dataset) : bool :=
  match ds with
  | DictDataset _ => false
  | ObjectDataset _ with_arr => with_arr
  end.

Record extra_attrs : Type := {
  data_type : string;
  num_halos : nat
}.

(** ** Strings and paths *)

(** [c in s] *)
Fixpoint contains (c : ascii) (s : string) : bool :=
  match s with
  | EmptyString => false
  | String a s' => Ascii.eqb a c || contains c s'
  end.

(** [s.rfind(c)]: the highest index of [c] in [s], or -1. *)
Fixpoint rfind (c : ascii) (s : string) : Z :=
  match s with
  | EmptyString => (-1)%Z
  | String a s' =>
      let r := rfind c s' in
      if (0 <=? r)%Z then (r + 1)%Z
      else if Ascii.eqb a c then 0%Z else (-1)%Z
  end.

(** [s[:stop]], with Python's reading of a negative or too large [stop]. *)
Definition slice_to (s : string) (stop : Z) : string :=
  let n := Z.of_nat (String.length s) in
  let stop := if (stop <? 0)%Z then Z.max 0 (n + stop) else Z.min stop n in
  String.substring 0 (Z.to_nat stop) s.

Definition startswith_sep (s : string) : bool :=
  match s with
  | String a _ => Ascii.eqb a "/"
  | EmptyString => false
  end.

Fixpoint endswith_sep (s : string) : bool :=
  match s with
  | EmptyString => false
  | String a EmptyString => Ascii.eqb a "/"
  | String _ s' => endswith_sep s'
  end.

(** [os.path.join(a, b)] of [posixpath]. *)
Definition os_path_join (a b : string) : string :=
  if startswith_sep b then b
  else if String.eqb a "" || endswith_sep a then a +:+ b
  else a +:+ "/" +:+ b.

(** [ensure_dir(path)] makes the directory and returns its path. *)
Definition ensure_dir (path : string) : string := path.

(** ["%s.%d.h5" % (basename, rank)] *)
Definition h5_name (basename : string) (rank : nat) : string :=
  basename +:+ "." +:+ pretty rank +:+ ".h5".

(** Modelled from the spec: [parallel_objects(objects, njobs=-1,
    dynamic=False)] of yt's parallel interface, which is not part of this
    repository: static mode, one job per worker, round-robin blocks.
    Worker [rank] of [size] gets [objects[rank::size]]. *)
Fixpoint every_nth {A} (skip size : nat) (objects : list A) : list A :=
  match objects with
  | [] => []
  | x :: rest =>
      match skip with
      | O => x :: every_nth (size - 1) size rest
      | S k => every_nth k size rest
      end
  end.

Definition parallel_objects {A} (rank size : nat) (objects : list A) : list A :=
  every_nth rank size objects.

Section Pipeline.
Context {V W : Type} `{PyValue V}.

(** [AnalysisTarget]: [quantities] starts as the empty dict.  The
    back-reference to the pipeline is left out. *)
Record AnalysisTarget : Type := {
  target_index : nat;
  target_object : nat;
  target_quantities : gmap string V
}.

Definition set_quantity (key : string) (v : V) (t : AnalysisTarget) : AnalysisTarget :=
  {| target_index := target_index t;
     target_object := target_object t;
     target_quantities := <[key := v]> (target_quantities t) |}.

Definition set_quantities (q : gmap string V) (t : AnalysisTarget) : AnalysisTarget :=
  {| target_index := target_index t;
     target_object := target_object t;
     target_quantities := q |}.

(** A callable of a registry, already bound to its arguments: called with
    the target, it may change the target and the world [W] (everything
    else it can reach), and returns a value or raises. *)
Definition callable : Type := M (AnalysisTarget * W) V.

(** The second component of a quantity action. *)
Inductive quantity_source : Type :=
| QCallable (f : callable)
| QField (r : field_ref).

(** The second component of an entry of [self.actions]: a callable, or the
    pair [(key, quantity)]. *)
Inductive payload : Type :=
| PCallable (f : callable)
| PKeyed (key : string) (quantity : quantity_source).

(** An entry [(action_type, action)] of [self.actions]. *)
Record action_entry : Type := {
  action_type : string;
  action : payload
}.

(** A chunk of the data source with its fields loaded: [chunk[field]] is a
    column, or a [KeyError]. *)
Definition chunk : Type := field_ref -> option (list V).

Record save_as_dataset_call : Type := {
  saved_ds : dataset;
  saved_filename : string;
  saved_data : gmap string (list V);
  saved_field_types : gmap string string;
  saved_extra_attrs : extra_attrs
}.

(** What [_save] does to the file system: the directory it ensures and the
    one call of [save_as_dataset]. *)
Record saved : Type := {
  ensured_dir : string;
  written : save_as_dataset_call
}.

(** [AnalysisPipeline].  [catalog] and [target_list] are attributes that
    [__init__] does not set ([None] here: reading them raises
    [AttributeError]); [comm], [halos_ds], [data_source] and
    [halo_field_type] come from [ParallelAnalysisInterface] and the
    concrete pipeline. *)
Record AnalysisPipeline : Type := {
  output_dir : string;
  actions : list action_entry;
  quantities : list string;
  field_quantities : list field_ref;
  catalog : option (list (gmap string V));
  target_list : option (list AnalysisTarget);
  comm_rank : nat;
  comm_size : nat;
  halos_ds : dataset;
  data_source : list chunk;
  halo_field_type : string
}.

Definition _target_id_field : string := "particle_identifier".

Definition set_actions (a : list action_entry) (p : AnalysisPipeline) : AnalysisPipeline :=
  {| output_dir := output_dir p; actions := a; quantities := quantities p;
     field_quantities := field_quantities p; catalog := catalog p;
     target_list := target_list p; comm_rank := comm_rank p;
     comm_size := comm_size p; halos_ds := halos_ds p;
     data_source := data_source p; halo_field_type := halo_field_type p |}.

Definition set_pipeline_quantities (q : list string) (p : AnalysisPipeline) : AnalysisPipeline :=
  {| output_dir := output_dir p; actions := actions p; quantities := q;
     field_quantities := field_quantities p; catalog := catalog p;
     target_list := target_list p; comm_rank := comm_rank p;
     comm_size := comm_size p; halos_ds := halos_ds p;
     data_source := data_source p; halo_field_type := halo_field_type p |}.

Definition set_field_quantities (f : list field_ref) (p : AnalysisPipeline) : AnalysisPipeline :=
  {| output_dir := output_dir p; actions := actions p; quantities := quantities p;
     field_quantities := f; catalog := catalog p;
     target_list := target_list p; comm_rank := comm_rank p;
     comm_size := comm_size p; halos_ds := halos_ds p;
     data_source := data_source p; halo_field_type := halo_field_type p |}.

Definition set_catalog (c : option (list (gmap string V))) (p : AnalysisPipeline) : AnalysisPipeline :=
  {| output_dir := output_dir p; actions := actions p; quantities := quantities p;
     field_quantities := field_quantities p; catalog := c;
     target_list := target_list p; comm_rank := comm_rank p;
     comm_size := comm_size p; halos_ds := halos_ds p;
     data_source := data_source p; halo_field_type := halo_field_type p |}.

Definition set_target_list (l : option (list AnalysisTarget)) (p : AnalysisPipeline) : AnalysisPipeline :=
  {| output_dir := output_dir p; actions := actions p; quantities := quantities p;
     field_quantities := field_quantities p; catalog := catalog p;
     target_list := l; comm_rank := comm_rank p;
     comm_size := comm_size p; halos_ds := halos_ds p;
     data_source := data_source p; halo_field_type := halo_field_type p |}.

(** ** [_process_target] *)

(** [action(new_target)] when [action] is not callable, and
    [key, quantity = action] when it is not a pair, raise [TypeError]. *)
Definition call (a : payload) : M (AnalysisTarget * W) V :=
  match a with
  | PCallable f => f
  | PKeyed _ _ => raise TypeError
  end.

Definition unpack (a : payload) : M (AnalysisTarget * W) (string * quantity_source) :=
  match a with
  | PKeyed key quantity => ret (key, quantity)
  | PCallable _ => raise TypeError
  end.

(** [data_source[quantity][index]] *)
Definition field_value (data_source : option chunk) (quantity : field_ref) (index : nat)
  : result V :=
  match data_source with
  | None => Raise TypeError
  | Some ds =>
      match ds quantity with
      | None => Raise (KeyError (match quantity with
                                 | FieldName key => key
                                 | FieldTuple _ key => key
                                 end))
      | Some column =>
          match column !! index with
          | None => Raise IndexError
          | Some v => Ok v
          end
      end
  end.

(** [new_target.quantities[key] = v] *)
Definition store (key : string) (v : V) : M (AnalysisTarget * W) unit :=
  modify (fun '(t, w) => (set_quantity key v t, w)).

(** The [for action_type, action in self.actions] loop, on the state
    [(new_target, world)].  It returns the truth value of [target_filter]
    when the loop is left, by exhaustion or by [break]. *)
Fixpoint action_loop (acts : list action_entry) (data_source : option chunk)
    (index : nat) (target_filter : bool) : M (AnalysisTarget * W) bool :=
  match acts with
  | [] => ret target_filter
  | a :: rest =>
      if String.eqb (action_type a) "callback" then
        _ <- call (action a) ;;
        action_loop rest data_source index target_filter
      else if String.eqb (action_type a) "filter" then
        r <- call (action a) ;;
        let target_filter := truthy r in
        if negb target_filter then ret target_filter
        else action_loop rest data_source index target_filter
      else if String.eqb (action_type a) "quantity" then
        kq <- unpack (action a) ;;
        match snd kq with
        | QCallable f =>
            v <- f ;;
            store (fst kq) v ;;;
            action_loop rest data_source index target_filter
        | QField r =>
            v <- lift (field_value data_source r index) ;;
            store (fst kq) v ;;;
            action_loop rest data_source index target_filter
        end
      else raise (RuntimeError "Action must be a callback, filter, or quantity.")
  end.

(** [if hasattr(quantity, "units"): quantity.convert_to_base()] *)
Definition to_base (quantity : V) : V :=
  if has_units quantity then convert_to_base quantity else quantity.

Definition new_target (target index : nat) : AnalysisTarget :=
  {| target_index := index; target_object := target; target_quantities := ∅ |}.

Definition append_catalog (q : gmap string V) : M (AnalysisPipeline * W) unit :=
  fun '(p, w) =>
    match catalog p with
    | None => (Raise (AttributeError "catalog"), (p, w))
    | Some c => (Ok tt, (set_catalog (Some (c ++ [q])) p, w))
    end.

Definition append_target_list (t : AnalysisTarget) : M (AnalysisPipeline * W) unit :=
  fun '(p, w) =>
    match target_list p with
    | None => (Raise (AttributeError "target_list"), (p, w))
    | Some l => (Ok tt, (set_target_list (Some (l ++ [t])) p, w))
    end.

Definition _process_target (target index : nat) (save_targets : bool)
    (data_source : option chunk) : M (AnalysisPipeline * W) unit :=
  fun '(p, w) =>
    match action_loop (actions p) data_source index true (new_target target index, w) with
    | (Raise e, (_, w')) => (Raise e, (p, w'))
    | (Ok target_filter, (t, w')) =>
        let t' := if target_filter
                  then set_quantities (to_base <$> target_quantities t) t
                  else t in
        ((if target_filter then append_catalog (target_quantities t') else ret tt) ;;;
         (if save_targets && target_filter then append_target_list t' else ret tt))
          (p, w')
    end.

(** ** [_run] *)

Fixpoint process_targets (my_indices : list nat) (save_targets : bool) (ch : chunk)
  : M (AnalysisPipeline * W) unit :=
  match my_indices with
  | [] => ret tt
  | my_index :: rest =>
      _process_target my_index my_index save_targets (Some ch) ;;;
      process_targets rest save_targets ch
  end.

(** [chunk[self.halo_field_type, self._target_id_field].size] *)
Definition chunk_size (p : AnalysisPipeline) (ch : chunk) : result nat :=
  match ch (FieldTuple (halo_field_type p) _target_id_field) with
  | None => Raise (KeyError _target_id_field)
  | Some column => Ok (List.length column)
  end.

(** The loop over [self.data_source.chunks([], 'io')].  [get_data] and the
    broadcast make the fields of the chunk available on every worker; a
    [chunk] here already has them. *)
Fixpoint process_chunks (chunks : list chunk) (save_targets : bool)
  : M (AnalysisPipeline * W) unit :=
  match chunks with
  | [] => ret tt
  | ch :: rest =>
      pw <- get ;;
      n <- lift (chunk_size (fst pw) ch) ;;
      let halo_indices := seq 0 n in
      let my_indices :=
        parallel_objects (comm_rank (fst pw)) (comm_size (fst pw)) halo_indices in
      process_targets my_indices save_targets ch ;;;
      process_chunks rest save_targets
  end.

(** ** [_save] *)

(** [[halo[key] for halo in self.catalog]] *)
Fixpoint column (key : string) (cat : list (gmap string V)) : result (list V) :=
  match cat with
  | [] => Ok []
  | halo :: rest =>
      match halo !! key with
      | None => Raise (KeyError key)
      | Some v =>
          match column key rest with
          | Ok vs => Ok (v :: vs)
          | Raise e => Raise e
          end
      end
  end.

(** [for key in self.quantities: data[key] = self.halos_ds.arr([...])].
    The method [self.halos_ds.arr] is looked up before the list is built,
    an [AttributeError] when the dataset has none; [arr] makes an array
    of the values, in their order. *)
Fixpoint build_data (ds : dataset) (keys : list string) (cat : list (gmap string V))
    (data : gmap string (list V)) : result (gmap string (list V)) :=
  match keys with
  | [] => Ok data
  | key :: rest =>
      if has_arr ds then
        match column key cat with
        | Ok col => build_data ds rest cat (<[key := col]> data)
        | Raise e => Raise e
        end
      else Raise (AttributeError "arr")
  end.

Definition get_basename (ds : dataset) : result (option string) :=
  match ds with
  | DictDataset entries => Ok (default None (entries !! "basename"))
  | ObjectDataset attributes _ =>
      match attributes !! "basename" with
      | None => Raise (AttributeError "basename")
      | Some b => Ok b
      end
  end.

(** [dict((key, ".") for key in self.quantities)] *)
Definition default_ftypes (keys : list string) : gmap string string :=
  list_to_map (map (fun key => (key, ".")) keys).

(** A field of the payload for which [field_types[field]] is a
    [KeyError], if there is one. *)
Definition untyped_field (data : gmap string (list V))
    (field_types : gmap string string) : option string :=
  fst <$> List.find (fun fc => match field_types !! fc.1 with
                               | None => true
                               | Some _ => false
                               end)
            (map_to_list data).

(** [save_as_dataset(ds, filename, data, field_types=..., extra_attrs=...)]
    of yt's [ytdata] frontend, which is not part of this repository.  It
    writes the file; for each field of the payload it first reads
    [field_types[field]], a [KeyError] when the field has no type.  The
    order in which a dict yields its keys is not modelled (the field that
    the error names is the first without a type in the order of the map),
    and neither are failures of the file system. *)
Definition save_as_dataset (ds : dataset) (filename : string)
    (data : gmap string (list V)) (field_types : gmap string string)
    (extra : extra_attrs) : result save_as_dataset_call :=
  match untyped_field data field_types with
  | Some field => Raise (KeyError field)
  | None =>
      Ok {| saved_ds := ds; saved_filename := filename; saved_data := data;
            saved_field_types := field_types; saved_extra_attrs := extra |}
  end.

Definition _save (ds : dataset) (data : option (gmap string (list V)))
    (ftypes : option (gmap string string)) : M (AnalysisPipeline * W) saved :=
  pw <- get ;;
  let self := fst pw in
  basename <- lift (get_basename ds) ;;
  let basename := default "analysis" basename in
  let basename :=
    if contains "." basename then slice_to basename (rfind "." basename)
    else basename in
  let data_dir := ensure_dir (os_path_join (output_dir self) basename) in
  let filename := os_path_join data_dir (h5_name basename (comm_rank self)) in
  nd <- lift (match data with
              | None =>
                  match catalog self with
                  | None => Raise (AttributeError "catalog")
                  | Some cat =>
                      let n_halos := List.length cat in
                      if (0 <? n_halos)%nat then
                        match build_data (halos_ds self) (quantities self) cat ∅ with
                        | Ok data => Ok (n_halos, data)
                        | Raise e => Raise e
                        end
                      else Ok (n_halos, ∅)
                  end
              | Some data =>
                  match data !! _target_id_field with
                  | None => Raise (KeyError _target_id_field)
                  | Some ids => Ok (List.length ids, data)
                  end
              end) ;;
  let ftypes := default (default_ftypes (quantities self)) ftypes in
  let extra_attrs := {| data_type := "halo_catalog"; num_halos := fst nd |} in
  call <- lift (save_as_dataset ds filename (snd nd) ftypes extra_attrs) ;;
  ret {| ensured_dir := data_dir; written := call |}.

Definition _run (save_targets save_catalog : bool)
  : M (AnalysisPipeline * W) (option saved) :=
  modify (fun '(p, w) => (set_catalog (Some []) p, w)) ;;;
  (if save_targets
   then modify (fun '(p, w) => (set_target_list (Some []) p, w))
   else ret tt) ;;;
  pw <- get ;;
  process_chunks (data_source (fst pw)) save_targets ;;;
  if save_catalog then
    pw <- get ;;
    s <- _save (halos_ds (fst pw)) None None ;;
    ret (Some s)
  else ret None.

(** ** The configuration methods *)

(** Modelled from the spec: the registries ([callback_registry],
    [filter_registry], [quantity_registry], [recipe_registry]) are defined
    in modules that are not part of the source at hand.  [find(name, *args,
    **kwargs)] returns a callable bound to the arguments, or fails. *)
Definition arguments : Type := list V * gmap string V.
Definition registry (X : Type) : Type := string -> arguments -> result X.
Definition find {X} (r : registry X) (name : string) (args : arguments) : result X :=
  r name args.

(** A recipe is called with the pipeline. *)
Definition recipe : Type := M AnalysisPipeline unit.

Record registries : Type := {
  callback_registry : registry callable;
  filter_registry : registry callable;
  quantity_registry : registry callable;
  recipe_registry : registry recipe
}.

Definition append_action (a : action_entry) : M AnalysisPipeline unit :=
  modify (fun p => set_actions (actions p ++ [a]) p).

Definition add_callback (R : registries) (callback : string) (args : arguments)
  : M AnalysisPipeline unit :=
  callback <- lift (find (callback_registry R) callback args) ;;
  append_action {| action_type := "callback"; action := PCallable callback |}.

(** [from_data_source] and [field_type] are popped from [kwargs] before the
    lookup: they are parameters here, and [args] is what is left. *)
Definition add_quantity (R : registries) (key : string) (args : arguments)
    (from_data_source : bool) (field_type : option string)
  : M AnalysisPipeline unit :=
  quantity <-
    (if negb from_data_source then
       f <- lift (find (quantity_registry R) key args) ;;
       ret (QCallable f)
     else
       let quantity := match field_type with
                       | None => FieldName key
                       | Some ft => FieldTuple ft key
                       end in
       modify (fun p => set_field_quantities (field_quantities p ++ [quantity]) p) ;;;
       ret (QField quantity)) ;;
  modify (fun p => set_pipeline_quantities (quantities p ++ [key]) p) ;;;
  append_action {| action_type := "quantity"; action := PKeyed key quantity |}.

Definition add_filter (R : registries) (halo_filter : string) (args : arguments)
  : M AnalysisPipeline unit :=
  halo_filter <- lift (find (filter_registry R) halo_filter args) ;;
  append_action {| action_type := "filter"; action := PCallable halo_filter |}.

Definition add_recipe (R : registries) (recipe : string) (args : arguments)
  : M AnalysisPipeline unit :=
  halo_recipe <- lift (find (recipe_registry R) recipe args) ;;
  halo_recipe.

(** A call of one of the four configuration methods, and a recipe body
    that is a sequence of such calls on the pipeline it is given. *)
Inductive config_call : Type :=
| AddCallback (callback : string) (args : arguments)
| AddFilter (halo_filter : string) (args : arguments)
| AddQuantity (key : string) (args : arguments)
    (from_data_source : bool) (field_type : option string)
| AddRecipe (recipe : string) (args : arguments).

Definition issue (R : registries) (c : config_call) : M AnalysisPipeline unit :=
  match c with
  | AddCallback callback args => add_callback R callback args
  | AddFilter halo_filter args => add_filter R halo_filter args
  | AddQuantity key args from_data_source field_type =>
      add_quantity R key args from_data_source field_type
  | AddRecipe recipe args => add_recipe R recipe args
  end.

Fixpoint issue_all (R : registries) (calls : list config_call) : M AnalysisPipeline unit :=
  match calls with
  | [] => ret tt
  | c :: rest => issue R c ;;; issue_all R rest
  end.

(** [AnalysisPipeline.__init__(self, output_dir="analysis")].  [comm] is
    set by [ParallelAnalysisInterface.__init__]; [halos_ds], [data_source]
    and [halo_field_type] are not assigned here, the concrete pipeline
    brings them. *)
Definition __init__ (rank size : nat) (ds : dataset) (source : list chunk)
    (field_type : string) (dir : option string) : AnalysisPipeline :=
  {| output_dir := ensure_dir (default "analysis" dir);
     actions := []; quantities := []; field_quantities := [];
     catalog := None; target_list := None;
     comm_rank := rank; comm_size := size; halos_ds := ds;
     data_source := source; halo_field_type := field_type |}.

End Pipeline.

(** ** Relations and predicates of the specification

    The theorems are phrased with these; the functions above are the
    code. *)


(** The base name that a dataset carries, if any: the ['basename'] entry
    of a dict, where a missing entry counts as none, or the [basename]
    attribute of an object that has one. *)
Inductive Named : dataset -> option string -> Prop :=
| NamedDict entries b :
    entries !! "basename" = Some b -> Named (DictDataset entries) b
| UnnamedDict entries :
    entries !! "basename" = None -> Named (DictDataset entries) None
| NamedObject attributes with_arr b :
    attributes !! "basename" = Some b -> Named (ObjectDataset attributes with_arr) b.

Section Specification.
Context {V W : Type} `{PyValue V}.

Local Abbreviation target_state := (@AnalysisTarget V * W)%type.

Definition callback_entry (f : @callable V W) : @action_entry V W :=
  {| action_type := "callback"; action := PCallable f |}.
Definition filter_entry (f : @callable V W) : @action_entry V W :=
  {| action_type := "filter"; action := PCallable f |}.
Definition quantity_entry (key : string) (q : @quantity_source V W) : @action_entry V W :=
  {| action_type := "quantity"; action := PKeyed key q |}.

Definition known_kind (tag : string) : Prop :=
  tag = "callback" \/ tag = "filter" \/ tag = "quantity".

(** One action is invoked on the target and returns: a callback for its
    effect, a filter with its verdict, a quantity with its value stored
    under the key. *)
Inductive Performs (ds : option (@chunk V)) (index : nat)
  : @action_entry V W -> target_state -> option bool -> target_state -> Prop :=
| PerformsCallback f s r s' :
    f s = (Ok r, s') ->
    Performs ds index (callback_entry f) s None s'
| PerformsFilter f s r s' :
    f s = (Ok r, s') ->
    Performs ds index (filter_entry f) s (Some (truthy r)) s'
| PerformsQuantity key f s v t' w' :
    f s = (Ok v, (t', w')) ->
    Performs ds index (quantity_entry key (QCallable f)) s None (set_quantity key v t', w')
| PerformsField key r t w v :
    field_value ds r index = Ok v ->
    Performs ds index (quantity_entry key (QField r)) (t, w) None (set_quantity key v t, w).

(** Every action of the list is invoked in order, and every filter among
    them returns true. *)
Inductive Passes (ds : option (@chunk V)) (index : nat)
  : list (@action_entry V W) -> target_state -> target_state -> Prop :=
| Passes_nil s : Passes ds index [] s s
| Passes_cons a rest s verdict s1 s2 :
    Performs ds index a s verdict s1 ->
    verdict <> Some false ->
    Passes ds index rest s1 s2 ->
    Passes ds index (a :: rest) s s2.

(** Some filter of the list, at whatever position, is reached and returns
    false; [s'] is the state when it returns. *)
Definition Rejected (ds : option (@chunk V)) (index : nat)
    (acts : list (@action_entry V W)) (s s' : target_state) : Prop :=
  exists pre f post s1 r,
    acts = pre ++ filter_entry f :: post /\
    Passes ds index pre s s1 /\
    f s1 = (Ok r, s') /\
    truthy r = false.

(** The targets of one chunk, taken in the order of [indices] from the
    world [w]: [kept] lists, in that order, the index and the normalised
    quantities of each target that passes; a rejected target leaves
    nothing. *)
Inductive Survivors (acts : list (@action_entry V W)) (ch : @chunk V)
  : list nat -> W -> list (nat * gmap string V) -> W -> Prop :=
| Survivors_nil w : Survivors acts ch [] w [] w
| Survivors_keep i rest w t w1 kept w2 :
    Passes (Some ch) i acts (new_target i i, w) (t, w1) ->
    Survivors acts ch rest w1 kept w2 ->
    Survivors acts ch (i :: rest) w ((i, to_base <$> target_quantities t) :: kept) w2
| Survivors_drop i rest w t w1 kept w2 :
    Rejected (Some ch) i acts (new_target i i, w) (t, w1) ->
    Survivors acts ch rest w1 kept w2 ->
    Survivors acts ch (i :: rest) w kept w2.

(** The chunks of a run in order, each with all its indices [0..n-1] in
    ascending order: [kept] has one list of survivors per chunk. *)
Inductive RunSurvivors (p : @AnalysisPipeline V W)
  : list (@chunk V) -> W -> list (list (nat * gmap string V)) -> W -> Prop :=
| RunSurvivors_nil w : RunSurvivors p [] w [] w
| RunSurvivors_cons ch rest n w k w1 kept w2 :
    chunk_size p ch = Ok n ->
    Survivors (actions p) ch (seq 0 n) w k w1 ->
    RunSurvivors p rest w1 kept w2 ->
    RunSurvivors p (ch :: rest) w (k :: kept) w2.

(** The payload can be built: with no explicit payload, the catalog
    exists, each of its entries has every configured key and, if there is
    a column to make, [self.halos_ds] has [arr]; an explicit payload has
    the id field. *)
Definition payload_available (p : @AnalysisPipeline V W)
    (data : option (gmap string (list V))) : Prop :=
  match data with
  | None => exists cat, catalog p = Some cat /\
              Forall (fun halo : gmap string V =>
                        Forall (fun key => is_Some (halo !! key)) (quantities p)) cat /\
              (cat <> [] -> quantities p <> [] -> has_arr (halos_ds p) = true)
  | Some d => is_Some (d !! _target_id_field)
  end.

(** Every field of the payload has a field type.  The default types are
    those of the configured keys, which are also the fields of the
    payload built from a catalog that is not empty. *)
Definition field_types_cover (p : @AnalysisPipeline V W)
    (data : option (gmap string (list V)))
    (ftypes : option (gmap string string)) : Prop :=
  let types := default (default_ftypes (quantities p)) ftypes in
  match data with
  | Some d => forall key, is_Some (d !! key) -> is_Some (types !! key)
  | None => catalog p = Some [] \/
            forall key, key ∈ quantities p -> is_Some (types !! key)
  end.

(** The fields that the engine never assigns. *)
Definition same_config (p p' : @AnalysisPipeline V W) : Prop :=
  output_dir p' = output_dir p /\ actions p' = actions p /\
  quantities p' = quantities p /\ field_quantities p' = field_quantities p /\
  comm_rank p' = comm_rank p /\ comm_size p' = comm_size p /\
  halos_ds p' = halos_ds p /\ data_source p' = data_source p /\
  halo_field_type p' = halo_field_type p.

(** The target after the pass over its quantities that converts to base
    units. *)
Definition normalised (t : @AnalysisTarget V) : @AnalysisTarget V :=
  set_quantities (to_base <$> target_quantities t) t.

(** [_run] starts from an empty catalog, and an empty target list when
    targets are saved. *)
Definition started (save_targets : bool) (p : @AnalysisPipeline V W) : @AnalysisPipeline V W :=
  if save_targets then set_target_list (Some []) (set_catalog (Some []) p)
  else set_catalog (Some []) p.

(** The key that an entry of the action list computes, and the field of
    the data source that it reads. *)
Definition quantity_key (a : @action_entry V W) : option string :=
  if String.eqb (action_type a) "quantity" then
    match action a with
    | PKeyed key _ => Some key
    | PCallable _ => None
    end
  else None.

Definition requested_field (a : @action_entry V W) : option field_ref :=
  if String.eqb (action_type a) "quantity" then
    match action a with
    | PKeyed _ (QField r) => Some r
    | _ => None
    end
  else None.

(** An entry as the configuration methods make them: one of the three
    tags, with the payload that goes with it. *)
Definition well_formed (a : @action_entry V W) : Prop :=
  (exists f, a = callback_entry f) \/
  (exists f, a = filter_entry f) \/
  (exists key q, a = quantity_entry key q).

(** A call of [add_callback], [add_filter] or [add_quantity]. *)
Definition base_call (c : @config_call V) : Prop :=
  match c with
  | AddRecipe _ _ => False
  | _ => True
  end.

(** The entry that goes with a call.  [add_callback] and [add_filter] add
    the callable found in their registry under the name given, tagged
    "callback" or "filter".  [add_quantity] adds, tagged "quantity" and
    under the key given, the callable found in the quantity registry, or,
    with [from_data_source], the field to read: the key alone, or the
    pair of [field_type] and the key. *)
Inductive Adds (R : @registries V W) : @config_call V -> @action_entry V W -> Prop :=
| AddsCallback name args f :
    find (callback_registry R) name args = Ok f ->
    Adds R (AddCallback name args) (callback_entry f)
| AddsFilter name args f :
    find (filter_registry R) name args = Ok f ->
    Adds R (AddFilter name args) (filter_entry f)
| AddsQuantity key args field_type f :
    find (quantity_registry R) key args = Ok f ->
    Adds R (AddQuantity key args false field_type) (quantity_entry key (QCallable f))
| AddsBareField key args :
    Adds R (AddQuantity key args true None) (quantity_entry key (QField (FieldName key)))
| AddsTypedField key args field_type :
    Adds R (AddQuantity key args true (Some field_type))
      (quantity_entry key (QField (FieldTuple field_type key))).

(** The lookup that a call makes raises [e]. *)
Inductive Refuses (R : @registries V W) : @config_call V -> exn -> Prop :=
| RefusesCallback name args e :
    find (callback_registry R) name args = Raise e ->
    Refuses R (AddCallback name args) e
| RefusesFilter name args e :
    find (filter_registry R) name args = Raise e ->
    Refuses R (AddFilter name args) e
| RefusesQuantity key args field_type e :
    find (quantity_registry R) key args = Raise e ->
    Refuses R (AddQuantity key args false field_type) e.

(** [flat] is [calls] with every call of [add_recipe] replaced by the
    calls of the recipe found under that name, nested recipes included. *)
Inductive ExpandsTo (R : @registries V W)
  : list (@config_call V) -> list (@config_call V) -> Prop :=
| ExpandsTo_nil : ExpandsTo R [] []
| ExpandsTo_base c rest flat :
    base_call c ->
    ExpandsTo R rest flat ->
    ExpandsTo R (c :: rest) (c :: flat)
| ExpandsTo_recipe name args body flat_body rest flat :
    find (recipe_registry R) name args = Ok (issue_all R body) ->
    ExpandsTo R body flat_body ->
    ExpandsTo R rest flat ->
    ExpandsTo R (AddRecipe name args :: rest) (flat_body ++ flat).

(** What the configuration methods never assign. *)
Definition same_engine_state (p p' : @AnalysisPipeline V W) : Prop :=
  output_dir p' = output_dir p /\ catalog p' = catalog p /\
  target_list p' = target_list p /\
  comm_rank p' = comm_rank p /\ comm_size p' = comm_size p /\
  halos_ds p' = halos_ds p /\ data_source p' = data_source p /\
  halo_field_type p' = halo_field_type p.

(** The catalog holds the quantities of the retained targets, in order. *)
Definition retained_in_step (p : @AnalysisPipeline V W) : Prop :=
  exists targets,
    target_list p = Some targets /\
    catalog p = Some (map target_quantities targets).

(** An action is reached in state [s] and does not return: the callable
    raises, or the field cannot be read. *)
Inductive Fails (ds : option (@chunk V)) (index : nat)
  : @action_entry V W -> target_state -> exn -> target_state -> Prop :=
| FailsCallback f s e s' :
    f s = (Raise e, s') ->
    Fails ds index (callback_entry f) s e s'
| FailsFilter f s e s' :
    f s = (Raise e, s') ->
    Fails ds index (filter_entry f) s e s'
| FailsQuantity key f s e s' :
    f s = (Raise e, s') ->
    Fails ds index (quantity_entry key (QCallable f)) s e s'
| FailsField key r s e :
    field_value ds r index = Raise e ->
    Fails ds index (quantity_entry key (QField r)) s e s.

(** The entries that [add_quantity(key, from_data_source=True, ...)] makes
    for a list of keys with their fields. *)
Definition field_entries (fields : list (string * field_ref)) : list (@action_entry V W) :=
  map (fun kr => quantity_entry kr.1 (QField kr.2)) fields.

End Specification.

(** ** A small instance, for concrete runs

    Values are [None], booleans, integers and lengths with a unit (base
    unit [cm]); the world is the log of the names of the callables called
    so far. *)

Module Sample.

Inductive length_unit : Type := cm | m | km.

Inductive value : Type :=
| VNone
| VBool (b : bool)
| VInt (n : Z)
| VLength (n : Z) (u : length_unit).

Definition value_truthy (v : value) : bool :=
  match v with
  | VNone => false
  | VBool b => b
  | VInt n => negb (n =? 0)%Z
  | VLength n _ => negb (n =? 0)%Z
  end.

Definition value_has_units (v : value) : bool :=
  match v with
  | VLength _ _ => true
  | _ => false
  end.

Definition value_to_base (v : value) : value :=
  match v with
  | VLength n m => VLength (100 * n) cm
  | VLength n km => VLength (100000 * n) cm
  | _ => v
  end.

#[export] Instance value_py : PyValue value :=
  {| truthy := value_truthy;
     has_units := value_has_units;
     convert_to_base := value_to_base |}.

Definition world : Type := list string.

(** A callable that logs its name and returns [r]. *)
Definition returning (name : string) (r : value) : @callable value world :=
  fun '(t, w) => (Ok r, (t, w ++ [name])).

(** A callable that logs its name and raises. *)
Definition failing (name : string) : @callable value world :=
  fun '(t, w) => (Raise (Exception name), (t, w ++ [name])).

(** A callable that does [target.quantities[key] = v]. *)
Definition writing (name key : string) (v : value) : @callable value world :=
  fun '(t, w) => (Ok VNone, (set_quantity key v t, w ++ [name])).

(** A callable that returns [target.quantities[key] > bound]. *)
Definition above (key : string) (bound : Z) : @callable value world :=
  fun '(t, w) =>
    (match target_quantities t !! key with
     | Some (VInt n) => Ok (VBool (bound <? n)%Z)
     | _ => Raise (KeyError key)
     end, (t, w)).

Definition field_ref_eqb (a b : field_ref) : bool :=
  match a, b with
  | FieldName x, FieldName y => String.eqb x y
  | FieldTuple t x, FieldTuple u y => String.eqb t u && String.eqb x y
  | _, _ => false
  end.

Definition chunk_of (columns : list (field_ref * list value)) : @chunk value :=
  fun r => snd <$> List.find (fun c => field_ref_eqb (fst c) r) columns.

(** Five halos, masses in units of 1e12 Msun. *)
Definition five_halos : @chunk value :=
  chunk_of [(FieldTuple "halos" "particle_identifier",
             [VInt 0; VInt 1; VInt 2; VInt 3; VInt 4]);
            (FieldTuple "halos" "particle_mass",
             [VInt 5; VInt 20; VInt 15; VInt 9; VInt 30]);
            (FieldTuple "halos" "virial_radius",
             [VLength 1 km; VLength 2 km; VLength 3 m; VLength 4 cm; VLength 5 km])].

(** A loaded halo catalog: an object with [basename] and [arr]. *)
Definition halos_64 : dataset :=
  ObjectDataset {[ "basename" := Some "halos_64.0.bin" ]} true.

(** A dict in the place of the halo catalog: it has no [arr]. *)
Definition halos_dict : dataset :=
  DictDataset {[ "basename" := Some "halos_64.0.bin" ]}.

Definition pipeline_of (acts : list (@action_entry value world)) (keys : list string)
    (chunks : list (@chunk value)) : @AnalysisPipeline value world :=
  {| output_dir := "analysis"; actions := acts; quantities := keys;
     field_quantities := []; catalog := None; target_list := None;
     comm_rank := 0; comm_size := 1;
     halos_ds := halos_64;
     data_source := chunks; halo_field_type := "halos" |}.

(** [pipeline.halos_ds = ds] *)
Definition on_dataset (ds : dataset) (p : @AnalysisPipeline value world)
  : @AnalysisPipeline value world :=
  {| output_dir := output_dir p; actions := actions p; quantities := quantities p;
     field_quantities := field_quantities p; catalog := catalog p;
     target_list := target_list p; comm_rank := comm_rank p; comm_size := comm_size p;
     halos_ds := ds; data_source := data_source p;
     halo_field_type := halo_field_type p |}.

(** Mass, then the filter [particle_mass > 10], then the virial radius. *)
Definition massive_halos : @AnalysisPipeline value world :=
  pipeline_of
    [quantity_entry "particle_mass" (QField (FieldTuple "halos" "particle_mass"));
     filter_entry (above "particle_mass" 10);
     quantity_entry "virial_radius" (QField (FieldTuple "halos" "virial_radius"))]
    ["particle_mass"; "virial_radius"]
    [five_halos].

(** A callback, a filter that returns false, and then three actions that
    would raise if they were called. *)
Definition short_circuit : @AnalysisPipeline value world :=
  pipeline_of
    [callback_entry (returning "sphere" VNone);
     filter_entry (returning "F1" (VBool false));
     filter_entry (failing "F2");
     quantity_entry "mass" (QCallable (failing "Q"));
     callback_entry (failing "C")]
    ["mass"]
    [five_halos].

(** Two quantities, one with units and one without; the catalog is there. *)
Definition two_quantities : @AnalysisPipeline value world :=
  set_catalog (Some [])
    (pipeline_of
       [quantity_entry "virial_radius" (QCallable (returning "radius" (VLength 2 km)));
        quantity_entry "members" (QCallable (returning "members" (VInt 7)))]
       ["virial_radius"; "members"]
       []).

(** An entry with the tag "plot" behind the mass filter. *)
Definition with_plot : @AnalysisPipeline value world :=
  pipeline_of
    [quantity_entry "particle_mass" (QField (FieldTuple "halos" "particle_mass"));
     filter_entry (above "particle_mass" 10);
     {| action_type := "plot"; action := PCallable (returning "plot" VNone) |};
     callback_entry (returning "later" VNone)]
    ["particle_mass"]
    [five_halos].

(** One callback, which stores a quantity of its own; the catalog is
    there. *)
Definition annotating : @AnalysisPipeline value world :=
  set_catalog (Some [])
    (pipeline_of [callback_entry (writing "annotate" "note" (VInt 1))] [] []).

(** A configured quantity and an empty catalog. *)
Definition nothing_survived : @AnalysisPipeline value world :=
  set_catalog (Some []) (pipeline_of [] ["particle_mass"] []).

(** One catalog entry per surviving halo, two configured quantities. *)
Definition two_survivors : @AnalysisPipeline value world :=
  set_catalog
    (Some [ {[ "particle_mass" := VInt 20; "members" := VInt 7 ]};
            {[ "particle_mass" := VInt 30; "members" := VInt 9 ]} ])
    (pipeline_of [] ["particle_mass"; "members"] []).

Definition no_arguments : @arguments value := ([], ∅).

(** A registry with the given names; any other name is a [KeyError]. *)
Definition known {X : Type} (names : list (string * X)) : @registry value X :=
  fun name _ =>
    match List.find (fun c => String.eqb (fst c) name) names with
    | Some c => Ok (snd c)
    | None => Raise (KeyError name)
    end.

Definition base_registries : @registries value world :=
  {| callback_registry := known [("sphere", returning "sphere" VNone)];
     filter_registry := known [("X", returning "X" (VBool true))];
     quantity_registry := known [("Y", returning "Y" (VInt 3))];
     recipe_registry := known [] |}.

(** The recipe "R": [add_filter("X")], then [add_quantity("Y")]. *)
Definition recipe_calls : list (@config_call value) :=
  [AddFilter "X" no_arguments; AddQuantity "Y" no_arguments false None].

Definition sample_registries : @registries value world :=
  {| callback_registry := callback_registry base_registries;
     filter_registry := filter_registry base_registries;
     quantity_registry := quantity_registry base_registries;
     recipe_registry := known [("R", issue_all base_registries recipe_calls)] |}.

Definition empty_pipeline : @AnalysisPipeline value world := pipeline_of [] [] [].

(** The recipe "outer": a callback, then the recipe "R". *)
Definition outer_calls : list (@config_call value) :=
  [AddCallback "sphere" no_arguments; AddRecipe "R" no_arguments].

Definition nested_registries : @registries value world :=
  {| callback_registry := callback_registry base_registries;
     filter_registry := filter_registry base_registries;
     quantity_registry := quantity_registry base_registries;
     recipe_registry :=
       known [("R", issue_all base_registries recipe_calls);
              ("outer", issue_all sample_registries outer_calls)] |}.

(** The spin is not a field of the chunk. *)
Definition with_spin : @AnalysisPipeline value world :=
  pipeline_of
    [quantity_entry "particle_mass" (QField (FieldTuple "halos" "particle_mass"));
     filter_entry (above "particle_mass" 10);
     quantity_entry "spin" (QField (FieldTuple "halos" "spin"));
     callback_entry (returning "later" VNone)]
    ["particle_mass"; "spin"]
    [five_halos].

(** Actions, but no chunk to run them on. *)
Definition no_chunks : @AnalysisPipeline value world :=
  pipeline_of [callback_entry (failing "C")] ["mass"] [].

(** A payload made elsewhere, with an id column of three halos. *)
Definition given_payload : gmap string (list value) :=
  {[ "particle_identifier" := [VInt 7; VInt 8; VInt 9];
     "particle_mass" := [VInt 20; VInt 15; VInt 30] ]}.

(** A type for each field of that payload. *)
Definition given_types : gmap string string :=
  {[ "particle_identifier" := "."; "particle_mass" := "." ]}.

(** Mass and radius, both read from the chunk; the catalog is there. *)
Definition from_fields : @AnalysisPipeline value world :=
  set_catalog (Some [])
    (pipeline_of
       (field_entries [("particle_mass", FieldTuple "halos" "particle_mass");
                       ("virial_radius", FieldTuple "halos" "virial_radius")])
       ["particle_mass"; "virial_radius"]
       [five_halos]).

End Sample.

(** * Properties of the action loop *)

Section ActionLoop.
Context {V W : Type} `{PyValue V}.

Local Abbreviation target_state := (@AnalysisTarget V * W)%type.

(** One performed action that is not a filter returning false lets the
    loop go on with the rest of the list. *)
Lemma action_loop_step ds index a rest (s s1 : target_state) verdict :
  Performs ds index a s verdict s1 ->
  verdict <> Some false ->
  action_loop (a :: rest) ds index true s = action_loop rest ds index true s1.
Proof.
  intros HP Hv.
  destruct HP as [f s r s' E | f s r s' E | key f s v t' w' E | key r t w v E];
    cbn; unfold bind, lift, store, modify; cbn; rewrite E; cbn; try reflexivity.
  destruct (truthy r); [reflexivity | congruence].
Qed.

(** A prefix that passes hands the loop over to what follows it. *)
Lemma action_loop_app ds index pre post (s s1 : target_state) :
  Passes ds index pre s s1 ->
  action_loop (pre ++ post) ds index true s = action_loop post ds index true s1.
Proof.
  induction 1 as [s | a rest s verdict s1 s2 HP Hv _ IH]; [reflexivity |].
  cbn [app]. rewrite (action_loop_step _ _ _ _ _ _ _ HP Hv). exact IH.
Qed.

Lemma passes_action_loop ds index acts (s s' : target_state) :
  Passes ds index acts s s' ->
  action_loop acts ds index true s = (Ok true, s').
Proof.
  intros HP. rewrite <- (app_nil_r acts). now rewrite (action_loop_app _ _ _ _ _ _ HP).
Qed.

Lemma rejected_action_loop ds index acts (s s' : target_state) :
  Rejected ds index acts s s' ->
  action_loop acts ds index true s = (Ok false, s').
Proof.
  intros (pre & f & post & s1 & r & -> & HP & E & Hr).
  rewrite (action_loop_app _ _ _ _ _ _ HP). cbn.
  unfold bind. rewrite E, Hr. reflexivity.
Qed.

Lemma rejected_cons ds index a rest (s s1 s' : target_state) verdict :
  Performs ds index a s verdict s1 ->
  verdict <> Some false ->
  Rejected ds index rest s1 s' ->
  Rejected ds index (a :: rest) s s'.
Proof.
  intros HP Hv (pre & f & post & s2 & r & -> & Hpre & E & Hr).
  exists (a :: pre), f, post, s2, r. repeat split; try assumption.
  econstructor; eassumption.
Qed.

(** Conversely, the loop returns only as the relations say. *)
Lemma action_loop_returns ds index acts (s s' : target_state) b :
  action_loop acts ds index true s = (Ok b, s') ->
  if b then Passes ds index acts s s' else Rejected ds index acts s s'.
Proof.
  revert s. induction acts as [| [tag pl] rest IH]; intros s E.
  - cbn in E. injection E as <- <-. constructor.
  - assert (Hcons : forall verdict s1,
               Performs ds index {| action_type := tag; action := pl |} s verdict s1 ->
               verdict <> Some false ->
               action_loop rest ds index true s1 = (Ok b, s') ->
               if b then Passes ds index ({| action_type := tag; action := pl |} :: rest) s s'
               else Rejected ds index ({| action_type := tag; action := pl |} :: rest) s s').
    { intros verdict s1 HP Hv E1. specialize (IH _ E1). destruct b.
      - econstructor; eassumption.
      - eapply rejected_cons; eassumption. }
    cbn in E.
    destruct (String.eqb tag "callback") eqn:Ecb.
    { apply String.eqb_eq in Ecb as ->.
      destruct pl as [f | key q]; [| discriminate E].
      cbn in E. unfold bind in E. destruct (f s) as [[r | e] s1] eqn:Ef; [| discriminate E].
      eapply Hcons; [eapply PerformsCallback; eassumption | discriminate | exact E]. }
    destruct (String.eqb tag "filter") eqn:Efl.
    { apply String.eqb_eq in Efl as ->.
      destruct pl as [f | key q]; [| discriminate E].
      cbn in E. unfold bind in E. destruct (f s) as [[r | e] s1] eqn:Ef; [| discriminate E].
      destruct (truthy r) eqn:Hr; cbn in E.
      - eapply Hcons; [eapply PerformsFilter; eassumption | rewrite Hr; discriminate | exact E].
      - injection E as <- <-.
        exists [], f, rest, s, r. repeat split; try assumption. constructor. }
    destruct (String.eqb tag "quantity") eqn:Eq.
    { apply String.eqb_eq in Eq as ->.
      destruct pl as [f | key q]; [discriminate E |].
      destruct q as [f | r]; cbn in E; unfold bind, lift, store, modify in E; cbn in E.
      - destruct (f s) as [[v | e] [t1 w1]] eqn:Ef; [| discriminate E].
        eapply Hcons; [eapply PerformsQuantity; eassumption | discriminate | exact E].
      - destruct (field_value ds r index) as [v | e] eqn:Ef; [| discriminate E].
        destruct s as [t w].
        eapply Hcons; [eapply PerformsField; eassumption | discriminate | exact E]. }
    discriminate E.
Qed.

(** A target cannot both pass and be rejected, and where it ends is
    determined. *)
Lemma passes_not_rejected ds index acts (s s1 s2 : target_state) :
  Passes ds index acts s s1 -> Rejected ds index acts s s2 -> False.
Proof.
  intros HP HR. apply passes_action_loop in HP. apply rejected_action_loop in HR.
  congruence.
Qed.

Lemma passes_deterministic ds index acts (s s1 s2 : target_state) :
  Passes ds index acts s s1 -> Passes ds index acts s s2 -> s1 = s2.
Proof.
  intros H1 H2. apply passes_action_loop in H1, H2. congruence.
Qed.

End ActionLoop.

(** * Properties of [_process_target] and [_run] *)

Section Engine.
Context {V W : Type} `{PyValue V}.

Local Abbreviation target_state := (@AnalysisTarget V * W)%type.
Local Abbreviation pipeline := (@AnalysisPipeline V W).

Lemma same_config_refl (p : pipeline) : same_config p p.
Proof. repeat split. Qed.

Lemma same_config_trans (p1 p2 p3 : pipeline) :
  same_config p1 p2 -> same_config p2 p3 -> same_config p1 p3.
Proof. unfold same_config. intuition congruence. Qed.

Lemma process_target_raised target index st ds (p : pipeline) w e t w' :
  action_loop (actions p) ds index true (new_target target index, w) = (Raise e, (t, w')) ->
  _process_target target index st ds (p, w) = (Raise e, (p, w')).
Proof. intros E. unfold _process_target. now rewrite E. Qed.

Lemma process_target_dropped target index st ds (p : pipeline) w t w' :
  action_loop (actions p) ds index true (new_target target index, w) = (Ok false, (t, w')) ->
  _process_target target index st ds (p, w) = (Ok tt, (p, w')).
Proof.
  intros E. unfold _process_target. rewrite E. cbn.
  now rewrite andb_false_r.
Qed.

Lemma process_target_kept target index st ds (p : pipeline) w t w' c :
  action_loop (actions p) ds index true (new_target target index, w) = (Ok true, (t, w')) ->
  catalog p = Some c ->
  _process_target target index st ds (p, w) =
  (if st then append_target_list (normalised t) else ret tt)
    (set_catalog (Some (c ++ [to_base <$> target_quantities t])) p, w').
Proof.
  intros E Hc. unfold _process_target. rewrite E. cbn.
  unfold bind, append_catalog. rewrite Hc. now rewrite andb_true_r.
Qed.

(** With the attributes that [_run] sets in place, a kept target is
    processed without error. *)
Lemma process_target_kept_ok target index st ds (p : pipeline) w t w' c :
  action_loop (actions p) ds index true (new_target target index, w) = (Ok true, (t, w')) ->
  catalog p = Some c ->
  (st = true -> is_Some (target_list p)) ->
  exists p', _process_target target index st ds (p, w) = (Ok tt, (p', w')) /\
             catalog p' = Some (c ++ [to_base <$> target_quantities t]) /\
             same_config p p' /\
             (st = true -> is_Some (target_list p')).
Proof.
  intros E Hc Hl. rewrite (process_target_kept _ _ _ _ _ _ _ _ _ E Hc).
  destruct st.
  - destruct (Hl eq_refl) as [l El]. unfold append_target_list. cbn. rewrite El.
    eexists. split; [reflexivity |]. cbn.
    split; [reflexivity |]. split; [repeat split | eauto].
  - eexists. split; [reflexivity |]. cbn.
    split; [reflexivity |]. split; [repeat split | discriminate].
Qed.

Lemma process_targets_app l1 l2 st ch (s : pipeline * W) :
  process_targets (l1 ++ l2) st ch s =
  (process_targets l1 st ch ;;; process_targets l2 st ch) s.
Proof.
  revert s. induction l1 as [| i l1 IH]; intros s; cbn.
  - reflexivity.
  - unfold bind.
    destruct (_process_target i i st (Some ch) s) as [[[] | e] s1]; [| reflexivity].
    rewrite IH. reflexivity.
Qed.

Lemma process_chunks_app l1 l2 st (s : pipeline * W) :
  process_chunks (l1 ++ l2) st s =
  (process_chunks l1 st ;;; process_chunks l2 st) s.
Proof.
  revert s. induction l1 as [| ch l1 IH]; intros s; cbn.
  - reflexivity.
  - unfold bind, get, lift. cbn.
    destruct (chunk_size s.1 ch) as [n | e]; [| reflexivity].
    destruct (process_targets _ st ch s) as [[[] | e] s1]; [| reflexivity].
    rewrite IH. reflexivity.
Qed.

(** The code gives what the relation says ... *)
Lemma process_targets_sound st ch idxs : forall (p : pipeline) w p' w' c,
  catalog p = Some c ->
  (st = true -> is_Some (target_list p)) ->
  process_targets idxs st ch (p, w) = (Ok tt, (p', w')) ->
  exists kept, Survivors (actions p) ch idxs w kept w' /\
               catalog p' = Some (c ++ map snd kept) /\
               same_config p p' /\
               (st = true -> is_Some (target_list p')).
Proof.
  induction idxs as [| i rest IH]; intros p w p' w' c Hc Hl E.
  - cbn in E. injection E as <- <-. exists []. cbn. rewrite app_nil_r.
    split; [constructor |]. split; [assumption |]. split; [apply same_config_refl | assumption].
  - cbn in E. unfold bind in E.
    destruct (action_loop (actions p) (Some ch) i true (new_target i i, w))
      as [[b | e] [t w1]] eqn:EL.
    + pose proof (action_loop_returns _ _ _ _ _ _ EL) as HS. destruct b.
      * destruct (process_target_kept_ok i i st (Some ch) p w t w1 c EL Hc Hl)
          as (p1 & E1 & Hc1 & Hcfg1 & Hl1).
        rewrite E1 in E.
        destruct (IH _ _ _ _ _ Hc1 Hl1 E) as (kept & HK & Hc' & Hcfg' & Hl').
        exists ((i, to_base <$> target_quantities t) :: kept).
        assert (Ha : actions p1 = actions p) by apply Hcfg1.
        split; [econstructor; [exact HS | now rewrite <- Ha] |].
        split; [rewrite Hc'; cbn; now rewrite <- app_assoc |].
        split; [eapply same_config_trans; eassumption | exact Hl'].
      * rewrite (process_target_dropped _ _ _ _ _ _ _ _ EL) in E.
        destruct (IH _ _ _ _ _ Hc Hl E) as (kept & HK & Hc' & Hcfg' & Hl').
        exists kept.
        split; [eapply Survivors_drop; eassumption |].
        split; [assumption |]. split; assumption.
    + rewrite (process_target_raised _ _ _ _ _ _ _ _ _ EL) in E. discriminate E.
Qed.

(** ... and whenever the relation holds the code returns. *)
Lemma process_targets_complete st ch acts idxs w kept w' :
  Survivors acts ch idxs w kept w' ->
  forall (p : pipeline) c,
  actions p = acts ->
  catalog p = Some c ->
  (st = true -> is_Some (target_list p)) ->
  exists p', process_targets idxs st ch (p, w) = (Ok tt, (p', w')) /\
             catalog p' = Some (c ++ map snd kept) /\
             same_config p p' /\
             (st = true -> is_Some (target_list p')).
Proof.
  induction 1 as [w | i rest w t w1 kept w2 HP _ IH | i rest w t w1 kept w2 HR _ IH];
    intros p c Ha Hc Hl.
  - exists p. cbn. rewrite app_nil_r.
    split; [reflexivity |]. split; [assumption |].
    split; [apply same_config_refl | assumption].
  - apply passes_action_loop in HP. rewrite <- Ha in HP.
    destruct (process_target_kept_ok i i st (Some ch) p w t w1 c HP Hc Hl)
      as (p1 & E1 & Hc1 & Hcfg1 & Hl1).
    assert (Ha1 : actions p1 = acts) by (rewrite <- Ha; apply Hcfg1).
    destruct (IH p1 _ Ha1 Hc1 Hl1) as (p' & E' & Hc' & Hcfg' & Hl').
    exists p'.
    split; [cbn; unfold bind; rewrite E1; exact E' |].
    split; [rewrite Hc'; cbn; now rewrite <- app_assoc |].
    split; [eapply same_config_trans; eassumption | exact Hl'].
  - apply rejected_action_loop in HR. rewrite <- Ha in HR.
    destruct (IH p _ Ha Hc Hl) as (p' & E' & Hc' & Hcfg' & Hl').
    exists p'.
    split; [cbn; unfold bind; rewrite (process_target_dropped _ _ _ _ _ _ _ _ HR); exact E' |].
    split; [assumption |]. split; assumption.
Qed.

End Engine.

Lemma every_nth_single {A} (l : list A) : every_nth 0 1 l = l.
Proof. induction l as [| x l IH]; cbn; [reflexivity | now rewrite IH]. Qed.

(** On a single worker the partitioner hands over every index, in order. *)
Lemma parallel_objects_single {A} (l : list A) : parallel_objects 0 1 l = l.
Proof. apply every_nth_single. Qed.

Lemma sublist_strongly_sorted {A} (R : relation A) (l1 l2 : list A) :
  sublist l1 l2 -> StronglySorted R l2 -> StronglySorted R l1.
Proof.
  induction 1 as [| x l1 l2 Hs IH | x l1 l2 Hs IH]; intros HS.
  - constructor.
  - apply StronglySorted_inv in HS as [HS HF]. constructor; [auto |].
    apply Forall_forall. intros y Hy.
    eapply Forall_forall in HF; [eassumption |].
    eapply elem_of_sublist; eassumption.
  - apply StronglySorted_inv in HS as [HS _]. auto.
Qed.

Lemma seq_strongly_sorted a n : StronglySorted lt (seq a n).
Proof.
  revert a. induction n as [| n IH]; intros a; cbn; constructor; [apply IH |].
  apply Forall_forall. intros x Hx. apply elem_of_seq in Hx. lia.
Qed.

Section Run.
Context {V W : Type} `{PyValue V}.

Local Abbreviation pipeline := (@AnalysisPipeline V W).

(** The survivors of a chunk come in the order of the indices. *)
Lemma survivors_sublist acts (ch : @chunk V) idxs (w w' : W) kept :
  Survivors acts ch idxs w kept w' -> sublist (map fst kept) idxs.
Proof.
  induction 1; cbn; [constructor | now apply sublist_skip | now apply sublist_cons].
Qed.

Lemma run_survivors_config (p p1 : pipeline) chunks w kept w' :
  actions p1 = actions p ->
  halo_field_type p1 = halo_field_type p ->
  RunSurvivors p1 chunks w kept w' -> RunSurvivors p chunks w kept w'.
Proof.
  intros Ha Hf. induction 1 as [| ch rest n w k w1 kept w2 Hn HS _ IH]; econstructor.
  - unfold chunk_size in *. rewrite <- Hf. exact Hn.
  - rewrite <- Ha. exact HS.
  - exact IH.
Qed.

Lemma run_survivors_sorted (p : pipeline) chunks w kept w' :
  RunSurvivors p chunks w kept w' ->
  Forall (fun k => StronglySorted lt (map fst k)) kept.
Proof.
  induction 1 as [| ch rest n w k w1 kept w2 Hn HS _ IH]; constructor; [| exact IH].
  eapply sublist_strongly_sorted; [eapply survivors_sublist; exact HS |].
  apply seq_strongly_sorted.
Qed.

Lemma process_chunks_sound st chunks : forall (p : pipeline) w p' w' c,
  comm_rank p = 0 -> comm_size p = 1 ->
  catalog p = Some c ->
  (st = true -> is_Some (target_list p)) ->
  process_chunks chunks st (p, w) = (Ok tt, (p', w')) ->
  exists kept, RunSurvivors p chunks w kept w' /\
               catalog p' = Some (c ++ map snd (List.concat kept)) /\
               same_config p p'.
Proof.
  induction chunks as [| ch rest IH]; intros p w p' w' c Hr Hs Hc Hl E.
  - cbn in E. injection E as <- <-. exists []. cbn. rewrite app_nil_r.
    split; [constructor |]. split; [assumption | apply same_config_refl].
  - cbn in E. unfold bind, get, lift in E. cbn in E.
    destruct (chunk_size p ch) as [n | e] eqn:En; [| discriminate E].
    rewrite Hr, Hs, parallel_objects_single in E.
    destruct (process_targets (seq 0 n) st ch (p, w)) as [[[] | e] [p1 w1]] eqn:E1;
      [| discriminate E].
    destruct (process_targets_sound _ _ _ _ _ _ _ _ Hc Hl E1) as (k & HK & Hc1 & Hcfg1 & Hl1).
    assert (Hr1 : comm_rank p1 = 0) by (rewrite <- Hr; apply Hcfg1).
    assert (Hs1 : comm_size p1 = 1) by (rewrite <- Hs; apply Hcfg1).
    destruct (IH _ _ _ _ _ Hr1 Hs1 Hc1 Hl1 E) as (kept & HR & Hc' & Hcfg').
    exists (k :: kept).
    split; [| split].
    + econstructor; [exact En | exact HK |].
      eapply run_survivors_config; [| | exact HR]; apply Hcfg1.
    + rewrite Hc'. cbn. rewrite map_app. now rewrite app_assoc.
    + eapply same_config_trans; eassumption.
Qed.

Lemma process_chunks_complete st (p0 : pipeline) chunks w kept w' :
  RunSurvivors p0 chunks w kept w' ->
  forall (p : pipeline) c,
  same_config p0 p ->
  comm_rank p = 0 -> comm_size p = 1 ->
  catalog p = Some c ->
  (st = true -> is_Some (target_list p)) ->
  exists p', process_chunks chunks st (p, w) = (Ok tt, (p', w')) /\
             catalog p' = Some (c ++ map snd (List.concat kept)) /\
             same_config p p'.
Proof.
  induction 1 as [| ch rest n w k w1 kept w2 Hn HS _ IH]; intros p c Hcfg Hr Hs Hc Hl.
  - exists p. cbn. rewrite app_nil_r.
    split; [reflexivity |]. split; [assumption | apply same_config_refl].
  - assert (Ha : actions p = actions p0) by apply Hcfg.
    assert (Hf : halo_field_type p = halo_field_type p0) by apply Hcfg.
    assert (En : chunk_size p ch = Ok n) by (unfold chunk_size in *; now rewrite Hf).
    destruct (process_targets_complete st _ _ _ _ _ _ HS p c Ha Hc Hl)
      as (p1 & E1 & Hc1 & Hcfg1 & Hl1).
    assert (Hr1 : comm_rank p1 = 0) by (rewrite <- Hr; apply Hcfg1).
    assert (Hs1 : comm_size p1 = 1) by (rewrite <- Hs; apply Hcfg1).
    destruct (IH p1 _ (same_config_trans _ _ _ Hcfg Hcfg1) Hr1 Hs1 Hc1 Hl1)
      as (p' & E' & Hc' & Hcfg').
    exists p'. split; [| split].
    + cbn. unfold bind, get, lift. cbn. rewrite En, Hr, Hs, parallel_objects_single, E1.
      exact E'.
    + rewrite Hc'. cbn. rewrite map_app. now rewrite app_assoc.
    + eapply same_config_trans; eassumption.
Qed.

Lemma run_unfold st sc (p : pipeline) (w : W) :
  _run st sc (p, w) =
  (process_chunks (data_source p) st ;;;
   if sc then
     pw <- get ;;
     s <- _save (halos_ds (fst pw)) None None ;;
     ret (Some s)
   else ret None) (started st p, w).
Proof. destruct st; reflexivity. Qed.

Lemma started_config st (p : pipeline) :
  same_config p (started st p) /\ catalog (started st p) = Some [] /\
  (st = true -> is_Some (target_list (started st p))).
Proof.
  destruct st; cbn; (split; [repeat split |]); (split; [reflexivity |]); eauto; discriminate.
Qed.

(** [_save] reads the pipeline and leaves it as it is. *)
Lemma save_state ds data ftypes (s : pipeline * W) :
  snd (_save ds data ftypes s) = s.
Proof.
  unfold _save, bind, get, lift, ret. cbn [fst snd].
  destruct (get_basename ds); [| reflexivity].
  repeat match goal with
         | |- context [match ?d with Ok _ => _ | Raise _ => _ end] => destruct d
         end; reflexivity.
Qed.

End Run.

(** * The engine *)

Section EngineClaims.
Context {V W : Type} `{PyValue V}.

Local Abbreviation target_state := (@AnalysisTarget V * W)%type.
Local Abbreviation pipeline := (@AnalysisPipeline V W).

Lemma append_target_list_some (t : @AnalysisTarget V) (p : pipeline) (w : W) l :
  target_list p = Some l ->
  append_target_list t (p, w) = (Ok tt, (set_target_list (Some (l ++ [t])) p, w)).
Proof. intros E. unfold append_target_list. now rewrite E. Qed.

Lemma append_target_list_none (t : @AnalysisTarget V) (p : pipeline) (w : W) :
  target_list p = None ->
  append_target_list t (p, w) = (Raise (AttributeError "target_list"), (p, w)).
Proof. intros E. unfold append_target_list. now rewrite E. Qed.

Lemma process_target_config target index st ds (p p' : pipeline) (w w' : W) r :
  _process_target target index st ds (p, w) = (r, (p', w')) -> same_config p p'.
Proof.
  unfold _process_target.
  destruct (action_loop _ _ _ _ _) as [[[] | e] [t w1]]; cbn.
  - unfold bind, append_catalog, append_target_list.
    destruct (catalog p) as [c |]; cbn.
    + destruct st; cbn; [destruct (target_list p) |]; intros [= <- <- <-]; repeat split.
    + intros [= <- <- <-]. apply same_config_refl.
  - rewrite andb_false_r. intros [= <- <- <-]. apply same_config_refl.
  - intros [= <- <- <-]. apply same_config_refl.
Qed.

Lemma process_targets_config st ch idxs : forall (p p' : pipeline) (w w' : W) r,
  process_targets idxs st ch (p, w) = (r, (p', w')) -> same_config p p'.
Proof.
  induction idxs as [| i rest IH]; intros p p' w w' r E; cbn in E.
  - injection E as <- <- <-. apply same_config_refl.
  - unfold bind in E.
    destruct (_process_target i i st (Some ch) (p, w)) as [[[] | e] [p1 w1]] eqn:E1.
    + eapply same_config_trans; [eapply process_target_config; exact E1 |].
      eapply IH; exact E.
    + injection E as <- <- <-. eapply process_target_config; exact E1.
Qed.

Lemma process_chunks_config st chunks : forall (p p' : pipeline) (w w' : W) r,
  process_chunks chunks st (p, w) = (r, (p', w')) -> same_config p p'.
Proof.
  induction chunks as [| ch rest IH]; intros p p' w w' r E; cbn in E.
  - injection E as <- <- <-. apply same_config_refl.
  - unfold bind, get, lift in E. cbn in E.
    destruct (chunk_size p ch) as [n | e].
    + destruct (process_targets _ st ch (p, w)) as [[[] | e] [p1 w1]] eqn:E1.
      * eapply same_config_trans; [eapply process_targets_config; exact E1 |].
        eapply IH; exact E.
      * injection E as <- <- <-. eapply process_targets_config; exact E1.
    + injection E as <- <- <-. apply same_config_refl.
Qed.

(** C1: on a single worker, the catalog after a run that returns holds
    exactly the normalised quantity mappings of the targets for which
    every filter returned true, chunk after chunk and in ascending index
    order within a chunk; a target for which some filter, at whatever
    position, returned false leaves no entry.  Conversely, whenever every
    target either passes or is rejected, the run returns with that
    catalog. *)
Theorem run_catalog_single_worker st sc (p : pipeline) (w : W) :
  comm_rank p = 0 -> comm_size p = 1 ->
  (forall r p' w',
     _run st sc (p, w) = (Ok r, (p', w')) ->
     exists kept,
       RunSurvivors p (data_source p) w kept w' /\
       catalog p' = Some (map snd (List.concat kept)) /\
       Forall (fun k => StronglySorted lt (map fst k)) kept) /\
  (forall kept w',
     RunSurvivors p (data_source p) w kept w' ->
     exists p',
       _run st false (p, w) = (Ok None, (p', w')) /\
       catalog p' = Some (map snd (List.concat kept))).
Proof.
  intros Hr Hs.
  destruct (started_config st p) as (Hcfg0 & Hc0 & Hl0).
  assert (Hr0 : comm_rank (started st p) = 0) by (rewrite <- Hr; apply Hcfg0).
  assert (Hs0 : comm_size (started st p) = 1) by (rewrite <- Hs; apply Hcfg0).
  split.
  - intros r p' w' E. rewrite run_unfold in E. unfold bind at 1 in E.
    destruct (process_chunks (data_source p) st (started st p, w))
      as [[[] | e] [p1 w1]] eqn:E1; [| discriminate E].
    destruct (process_chunks_sound _ _ _ _ _ _ _ Hr0 Hs0 Hc0 Hl0 E1) as (kept & HR & Hc1 & _).
    assert (Hst : (p', w') = (p1, w1)).
    { destruct sc.
      - unfold bind, get, ret in E. cbn [fst] in E.
        pose proof (save_state (halos_ds p1) None None (p1, w1)) as Hsv.
        destruct (_save (halos_ds p1) None None (p1, w1)) as [[sv | e] s1];
          cbn in Hsv; subst s1; [injection E as _ <- <- | discriminate E]; reflexivity.
      - injection E as _ <- <-. reflexivity. }
    injection Hst as -> ->.
    exists kept. split; [| split].
    + eapply run_survivors_config; [| | exact HR]; apply Hcfg0.
    + exact Hc1.
    + eapply run_survivors_sorted; exact HR.
  - intros kept w' HR.
    destruct (process_chunks_complete st _ _ _ _ _ HR (started st p) [] Hcfg0 Hr0 Hs0 Hc0 Hl0)
      as (p' & E' & Hc' & _).
    exists p'. split; [| exact Hc'].
    rewrite run_unfold. unfold bind. now rewrite E'.
Qed.

(** C2: when a filter returns false for a target, the loop over the
    actions is left in the state in which that filter returned, whatever
    follows the filter in the list: none of the later callbacks, filters
    or quantities is applied to the target, and nothing is appended for
    it. *)
Theorem filter_false_stops_target target index st ds (p : pipeline) (w : W)
    pre f post s1 r t' w' :
  actions p = pre ++ filter_entry f :: post ->
  Passes ds index pre (new_target target index, w) s1 ->
  f s1 = (Ok r, (t', w')) ->
  truthy r = false ->
  action_loop (actions p) ds index true (new_target target index, w) = (Ok false, (t', w')) /\
  _process_target target index st ds (p, w) = (Ok tt, (p, w')).
Proof.
  intros Ha HP Ef Hr.
  assert (EL : action_loop (actions p) ds index true (new_target target index, w)
               = (Ok false, (t', w'))).
  { apply rejected_action_loop. exists pre, f, post, s1, r. auto. }
  split; [exact EL |]. eapply process_target_dropped; exact EL.
Qed.

(** C6: for a target that passes every filter, the quantities as the last
    action left them are normalised in one pass before the mapping is
    appended to the catalog: under each key, a value with units is
    replaced by its [convert_to_base], applied once, and a value without
    units is kept as it is.  The target retained with [save_targets] has
    the same normalised quantities. *)
Theorem survivor_normalised_once target index st ds (p : pipeline) (w : W) t w' c :
  Passes ds index (actions p) (new_target target index, w) (t, w') ->
  catalog p = Some c ->
  exists r p' m,
    _process_target target index st ds (p, w) = (r, (p', w')) /\
    catalog p' = Some (c ++ [m]) /\
    (forall key,
       m !! key =
       match target_quantities t !! key with
       | Some v => Some (if has_units v then convert_to_base v else v)
       | None => None
       end) /\
    (forall l, st = true -> target_list p = Some l ->
       r = Ok tt /\
       target_list p' = Some (l ++ [set_quantities m t])) /\
    (st = false -> r = Ok tt).
Proof.
  intros HP Hc. apply passes_action_loop in HP.
  pose proof (process_target_kept target index st ds p w t w' c HP Hc) as E.
  set (m := to_base <$> target_quantities t) in *.
  assert (Hm : forall key,
             m !! key =
             match target_quantities t !! key with
             | Some v => Some (if has_units v then convert_to_base v else v)
             | None => None
             end).
  { intros key. unfold m. rewrite lookup_fmap.
    destruct (target_quantities t !! key); reflexivity. }
  destruct st.
  - destruct (target_list p) as [l |] eqn:El.
    + rewrite (append_target_list_some _ _ _ l) in E by exact El.
      eexists _, _, m. split; [exact E |]. cbn.
      split; [reflexivity |]. split; [exact Hm |].
      split; [| discriminate].
      intros l' _ [= <-]. split; reflexivity.
    + rewrite append_target_list_none in E by exact El.
      eexists _, _, m. split; [exact E |]. cbn.
      split; [reflexivity |]. split; [exact Hm |].
      split; [| discriminate]. intros l' _ [=].
  - eexists _, _, m. split; [exact E |]. cbn.
    split; [reflexivity |]. split; [exact Hm |].
    split; [discriminate | reflexivity].
Qed.

Lemma unknown_kind_tests (tag : string) :
  ~ known_kind tag ->
  String.eqb tag "callback" = false /\ String.eqb tag "filter" = false /\
  String.eqb tag "quantity" = false.
Proof.
  unfold known_kind. intros Hk.
  repeat split; apply String.eqb_neq; intros ->; apply Hk; auto.
Qed.

Lemma no_filter_not_rejected ds index acts (s s' : target_state) :
  Forall (fun a => action_type a <> "filter") acts ->
  Rejected ds index acts s s' -> False.
Proof.
  intros HF (pre & f & post & s1 & r & -> & _).
  apply Forall_app in HF as [_ HF]. apply Forall_cons in HF as [HF _].
  now apply HF.
Qed.

(** C7: when a target reaches an entry of the action list whose tag is
    none of "callback", "filter" and "quantity", the loop raises
    [RuntimeError] there, [_process_target] raises it with nothing
    appended, and [_run] ends with that error in the very state in which
    the entry was reached: the entries after it, the targets and chunks
    still to come and the save are not touched. *)
Theorem unknown_action_aborts_run st sc (p : pipeline) (w : W)
    chs1 ch chs2 p1 w1 n before i after p2 w2 pre a post t w3 :
  data_source p = chs1 ++ ch :: chs2 ->
  process_chunks chs1 st (started st p, w) = (Ok tt, (p1, w1)) ->
  chunk_size p ch = Ok n ->
  parallel_objects (comm_rank p) (comm_size p) (seq 0 n) = before ++ i :: after ->
  process_targets before st ch (p1, w1) = (Ok tt, (p2, w2)) ->
  actions p = pre ++ a :: post ->
  ~ known_kind (action_type a) ->
  Passes (Some ch) i pre (new_target i i, w2) (t, w3) ->
  let error := RuntimeError "Action must be a callback, filter, or quantity." in
  action_loop (actions p) (Some ch) i true (new_target i i, w2) = (Raise error, (t, w3)) /\
  _process_target i i st (Some ch) (p2, w2) = (Raise error, (p2, w3)) /\
  _run st sc (p, w) = (Raise error, (p2, w3)).
Proof.
  intros Hds E1 En Hpo E2 Ha Hk HP error.
  assert (EL : action_loop (actions p) (Some ch) i true (new_target i i, w2)
               = (Raise error, (t, w3))).
  { rewrite Ha, (action_loop_app _ _ _ _ _ _ HP). cbn.
    destruct (unknown_kind_tests _ Hk) as (-> & -> & ->). reflexivity. }
  pose proof (proj1 (started_config st p)) as Hcfg0.
  pose proof (process_chunks_config _ _ _ _ _ _ _ E1) as Hcfg1.
  pose proof (process_targets_config _ _ _ _ _ _ _ _ E2) as Hcfg2.
  pose proof (same_config_trans _ _ _ Hcfg0 Hcfg1) as Hp1.
  pose proof (same_config_trans _ _ _ Hp1 Hcfg2) as Hp2.
  assert (EP : _process_target i i st (Some ch) (p2, w2) = (Raise error, (p2, w3))).
  { eapply process_target_raised.
    replace (actions p2) with (actions p) by (symmetry; apply Hp2). exact EL. }
  split; [exact EL |]. split; [exact EP |].
  rewrite run_unfold, Hds. unfold bind at 1. rewrite process_chunks_app.
  unfold bind at 1. rewrite E1. cbn [process_chunks].
  unfold bind at 1, get. unfold bind at 1, lift. cbn [fst].
  replace (chunk_size p1 ch) with (chunk_size p ch)
    by (unfold chunk_size; now replace (halo_field_type p1) with (halo_field_type p)
          by (symmetry; apply Hp1)).
  rewrite En.
  replace (comm_rank p1) with (comm_rank p) by (symmetry; apply Hp1).
  replace (comm_size p1) with (comm_size p) by (symmetry; apply Hp1).
  rewrite Hpo. unfold bind at 1. rewrite process_targets_app.
  unfold bind at 1. rewrite E2.
  cbn [process_targets]. unfold bind at 1. rewrite EP. reflexivity.
Qed.

(** C10 (as amended): a list without filter actions, the empty list among
    them, never rejects a target.  Whenever its actions return, the target
    survives and its quantities, as the actions left them and normalised,
    are appended to the catalog; with an empty action list that mapping is
    empty. *)
Theorem no_filter_target_survives target index st ds (p : pipeline) (w : W) b t w' c :
  Forall (fun a => action_type a <> "filter") (actions p) ->
  action_loop (actions p) ds index true (new_target target index, w) = (Ok b, (t, w')) ->
  catalog p = Some c ->
  b = true /\
  exists r p',
    _process_target target index st ds (p, w) = (r, (p', w')) /\
    catalog p' = Some (c ++ [to_base <$> target_quantities t]) /\
    ((st = true -> is_Some (target_list p)) -> r = Ok tt) /\
    (actions p = [] -> to_base <$> target_quantities t = ∅).
Proof.
  intros HF EL Hc.
  assert (Hb : b = true).
  { destruct b; [reflexivity |]. exfalso.
    eapply no_filter_not_rejected; [exact HF |].
    exact (action_loop_returns _ _ _ _ _ _ EL). }
  subst b. split; [reflexivity |].
  assert (Hempty : actions p = [] -> to_base <$> target_quantities t = ∅).
  { intros Ha. rewrite Ha in EL. cbn in EL. injection EL as <- _. cbn. apply fmap_empty. }
  destruct (decide (st = true -> is_Some (target_list p))) as [Hl | Hl].
  - destruct (process_target_kept_ok target index st ds p w t w' c EL Hc Hl)
      as (p' & E & Hc' & _).
    exists (Ok tt), p'. auto.
  - pose proof (process_target_kept target index st ds p w t w' c EL Hc) as E.
    destruct st; [| exfalso; apply Hl; discriminate].
    destruct (target_list p) as [l |] eqn:El; [exfalso; apply Hl; eauto |].
    rewrite append_target_list_none in E by exact El.
    eexists _, _. split; [exact E |]. cbn.
    split; [reflexivity |]. split; [intros Hl'; contradiction | exact Hempty].
Qed.

End EngineClaims.

(** * The configuration methods *)

Section ConfigurationClaims.
Context {V W : Type}.

Local Abbreviation pipeline := (@AnalysisPipeline V W).

(** C3 (as amended): [add_quantity] branches on [from_data_source].
    Without it and without [field_type], the key is looked up in the
    quantity registry and the callable found is appended under the key.
    With it no registry is consulted (the outcome is the same for any
    registries): the reference, [(field_type, key)] when [field_type] is
    given and the bare key otherwise, is added to [field_quantities] and
    appended under the key.  In both cases the key joins [quantities]. *)
Theorem add_quantity_branches (R : @registries V W) key args field_type (p : pipeline) :
  (forall f,
     field_type = None ->
     find (quantity_registry R) key args = Ok f ->
     add_quantity R key args false field_type p =
     (Ok tt,
      set_actions (actions p ++ [quantity_entry key (QCallable f)])
        (set_pipeline_quantities (quantities p ++ [key]) p))) /\
  (let ref := match field_type with
              | None => FieldName key
              | Some ft => FieldTuple ft key
              end in
   add_quantity R key args true field_type p =
   (Ok tt,
    set_actions (actions p ++ [quantity_entry key (QField ref)])
      (set_pipeline_quantities (quantities p ++ [key])
         (set_field_quantities (field_quantities p ++ [ref]) p))) /\
   forall R' : @registries V W,
     add_quantity R' key args true field_type p =
     add_quantity R key args true field_type p).
Proof.
  split.
  - intros f -> Ef. unfold add_quantity, bind, lift. cbn. rewrite Ef. reflexivity.
  - split; [reflexivity |]. intros R'. reflexivity.
Qed.

(** C4: when the registry lookup of [add_callback], [add_filter] or
    [add_quantity] fails, the call raises that error and the pipeline is
    the one before the call: no action, key or field request has been
    appended. *)
Theorem failed_lookup_leaves_pipeline (R : @registries V W) (p : pipeline) e :
  (forall callback args,
     find (callback_registry R) callback args = Raise e ->
     add_callback R callback args p = (Raise e, p)) /\
  (forall halo_filter args,
     find (filter_registry R) halo_filter args = Raise e ->
     add_filter R halo_filter args p = (Raise e, p)) /\
  (forall key args field_type,
     find (quantity_registry R) key args = Raise e ->
     add_quantity R key args false field_type p = (Raise e, p)).
Proof.
  split; [| split].
  - intros callback args E. unfold add_callback, bind, lift. now rewrite E.
  - intros halo_filter args E. unfold add_filter, bind, lift. now rewrite E.
  - intros key args field_type E. unfold add_quantity, bind, lift. cbn. now rewrite E.
Qed.

Lemma issue_all_app (R : @registries V W) l1 l2 (p : pipeline) :
  issue_all R (l1 ++ l2) p = (issue_all R l1 ;;; issue_all R l2) p.
Proof.
  revert p. induction l1 as [| c l1 IH]; intros p; cbn.
  - reflexivity.
  - unfold bind. destruct (issue R c p) as [[[] | e] p1]; [| reflexivity].
    rewrite IH. reflexivity.
Qed.

(** C5: when the recipe found under a name is a sequence of calls of the
    four configuration methods on the pipeline it is given, [add_recipe]
    has the outcome of issuing those calls in that order on the pipeline:
    the same result and the same pipeline, action list included.  Within
    any sequence of configuration calls, the call of [add_recipe] can be
    replaced by the calls of the recipe. *)
Theorem recipe_expands_to_its_calls (R : @registries V W) recipe args calls :
  find (recipe_registry R) recipe args = Ok (issue_all R calls) ->
  (forall p : pipeline,
     add_recipe R recipe args p = issue_all R calls p /\
     actions (snd (add_recipe R recipe args p)) = actions (snd (issue_all R calls p))) /\
  (forall before after (p : pipeline),
     issue_all R (before ++ AddRecipe recipe args :: after) p =
     issue_all R (before ++ calls ++ after) p).
Proof.
  intros E.
  assert (Eq : forall p : pipeline, add_recipe R recipe args p = issue_all R calls p)
    by (intros p; unfold add_recipe, bind, lift; now rewrite E).
  split.
  - intros p. split; [apply Eq | now rewrite Eq].
  - intros before after p. rewrite !issue_all_app. unfold bind.
    destruct (issue_all R before p) as [[[] | e] p1]; [| reflexivity].
    rewrite issue_all_app. cbn. unfold bind. now rewrite Eq.
Qed.

End ConfigurationClaims.

(** * Strings and paths *)













(** * The catalog writer *)

Section SaveClaims.
Context {V W : Type}.

Local Abbreviation pipeline := (@AnalysisPipeline V W).

Lemma get_basename_named ds b : Named ds b -> get_basename ds = Ok b.
Proof.
  destruct 1 as [entries b E | entries E | attributes with_arr b E]; cbn; now rewrite E.
Qed.

Lemma column_spec key (cat : list (gmap string V)) :
  Forall (fun halo => is_Some (halo !! key)) cat ->
  exists col, column key cat = Ok col /\
              Forall2 (fun halo v => halo !! key = Some v) cat col.
Proof.
  induction 1 as [| halo cat [v Ev] _ (col & Ec & HF)]; cbn.
  - exists []. split; [reflexivity | constructor].
  - exists (v :: col). rewrite Ev, Ec. split; [reflexivity | now constructor].
Qed.

Lemma build_data_spec ds (cat : list (gmap string V)) keys : forall data,
  (keys <> [] -> has_arr ds = true) ->
  Forall (fun key => Forall (fun halo => is_Some (halo !! key)) cat) keys ->
  exists data',
    build_data ds keys cat data = Ok data' /\
    (forall key, key ∈ keys ->
       exists col, data' !! key = Some col /\
                   Forall2 (fun halo v => halo !! key = Some v) cat col) /\
    (forall key, key ∉ keys -> data' !! key = data !! key).
Proof.
  induction keys as [| k keys IH]; intros data Harr HF; cbn.
  - exists data. split; [reflexivity |]. split; [| reflexivity].
    intros key Hin. now apply elem_of_nil in Hin.
  - apply Forall_cons in HF as [Hk HF].
    rewrite (Harr ltac:(discriminate)).
    destruct (column_spec k cat Hk) as (col & Ec & Hcol). rewrite Ec.
    destruct (IH (<[k := col]> data) (fun _ => Harr ltac:(discriminate)) HF)
      as (data' & Eb & Hin & Hout).
    exists data'. split; [exact Eb |]. split.
    + intros key Hkey. destruct (decide (key ∈ keys)) as [Hi | Hni]; [now apply Hin |].
      apply elem_of_cons in Hkey as [-> | Hkey]; [| contradiction].
      exists col. split; [| exact Hcol].
      rewrite (Hout _ Hni). apply lookup_insert_eq.
    + intros key Hkey. apply not_elem_of_cons in Hkey as [Hne Hni].
      rewrite (Hout _ Hni). now apply lookup_insert_ne.
Qed.

Lemma keys_of_entries (cat : list (gmap string V)) (keys : list string) :
  Forall (fun halo : gmap string V => Forall (fun key => is_Some (halo !! key)) keys) cat ->
  Forall (fun key => Forall (fun halo : gmap string V => is_Some (halo !! key)) cat) keys.
Proof.
  intros HF. apply Forall_forall. intros key Hkey.
  apply Forall_forall. intros halo Hhalo.
  eapply Forall_forall in HF; [| exact Hhalo].
  eapply Forall_forall in HF; [exact HF | exact Hkey].
Qed.

(** [save_as_dataset] finds a field without a type exactly when there is
    one. *)
Lemma untyped_field_none (d : gmap string (list V)) (types : gmap string string) :
  untyped_field d types = None <->
  (forall key, is_Some (d !! key) -> is_Some (types !! key)).
Proof.
  unfold untyped_field. split.
  - intros E key [col Hcol].
    destruct (List.find _ (map_to_list d)) as [fc |] eqn:Ef; [discriminate E |].
    assert (Hin : In (key, col) (map_to_list d))
      by (apply list_elem_of_In, elem_of_map_to_list; exact Hcol).
    pose proof (List.find_none _ _ Ef _ Hin) as Hf. cbn in Hf.
    destruct (types !! key); [eauto | discriminate Hf].
  - intros Hall.
    destruct (List.find _ (map_to_list d)) as [[key col] |] eqn:Ef; [| reflexivity].
    apply List.find_some in Ef as [Hin Hf]. cbn in Hf.
    apply list_elem_of_In, elem_of_map_to_list in Hin.
    destruct (Hall key ltac:(eauto)) as [t Ht]. rewrite Ht in Hf. discriminate Hf.
Qed.


(** What [save_as_dataset] is handed when it returns. *)
Lemma save_as_dataset_ok ds filename (d : gmap string (list V)) types extra call :
  save_as_dataset ds filename d types extra = Ok call ->
  saved_ds call = ds /\ saved_filename call = filename /\ saved_data call = d /\
  saved_field_types call = types /\ saved_extra_attrs call = extra /\
  untyped_field d types = None.
Proof.
  unfold save_as_dataset. destruct (untyped_field d types); [discriminate |].
  intros [= <-]. cbn. auto 6.
Qed.


(** The call of [save_as_dataset] that [_save] makes when the base name
    and the payload are available and every field of the payload has a
    type. *)
Lemma save_returns ds data ftypes (p : pipeline) (w : W) b :
  Named ds b ->
  payload_available p data ->
  field_types_cover p data ftypes ->
  let name := default "analysis" b in
  let stem := if contains "." name then slice_to name (rfind "." name) else name in
  let data_dir := os_path_join (output_dir p) stem in
  exists n d,
    _save ds data ftypes (p, w) =
    (Ok {| ensured_dir := data_dir;
           written :=
             {| saved_ds := ds;
                saved_filename := os_path_join data_dir (h5_name stem (comm_rank p));
                saved_data := d;
                saved_field_types := default (default_ftypes (quantities p)) ftypes;
                saved_extra_attrs := {| data_type := "halo_catalog"; num_halos := n |} |} |},
     (p, w)) /\
    match data with
    | Some given => d = given /\ exists ids, given !! _target_id_field = Some ids /\
                                             n = List.length ids
    | None => exists cat, catalog p = Some cat /\ n = List.length cat /\
                (cat = [] -> d = ∅) /\
                (cat <> [] ->
                   (forall key, key ∈ quantities p ->
                      exists col, d !! key = Some col /\
                                  Forall2 (fun halo v => halo !! key = Some v) cat col) /\
                   (forall key, key ∉ quantities p -> d !! key = None))
    end.
Proof.
  intros HN HP HT name stem data_dir.
  unfold _save, bind, get, lift, ret, save_as_dataset. cbn [fst snd].
  rewrite (get_basename_named _ _ HN).
  destruct data as [given |]; cbn in HP, HT.
  - destruct HP as [ids Eids]. rewrite Eids. cbn [fst snd].
    rewrite (proj2 (untyped_field_none given _) HT).
    exists (List.length ids), given. split; [reflexivity |]. eauto.
  - destruct HP as (cat & Ec & HF & Harr). rewrite Ec.
    destruct cat as [| halo cat].
    + cbn [List.length Nat.ltb Nat.leb fst snd].
      rewrite (proj2 (untyped_field_none ∅ _));
        [| intros key [col Hcol]; rewrite lookup_empty in Hcol; discriminate Hcol].
      exists 0, ∅. split; [reflexivity |]. exists [].
      split; [reflexivity |]. split; [reflexivity |]. split; [reflexivity | congruence].
    + destruct (build_data_spec (halos_ds p) (halo :: cat) (quantities p) ∅
                  (Harr ltac:(discriminate)) (keys_of_entries _ _ HF))
        as (d & Eb & Hin & Hout).
      cbn [List.length Nat.ltb Nat.leb]. rewrite Eb. cbn [fst snd].
      rewrite (proj2 (untyped_field_none d _)).
      * exists (List.length (halo :: cat)), d. split; [reflexivity |].
        exists (halo :: cat).
        split; [reflexivity |]. split; [reflexivity |]. split; [congruence |].
        intros _. split; [exact Hin |].
        intros key Hkey. rewrite (Hout _ Hkey). apply lookup_empty.
      * intros key [col Hcol].
        destruct HT as [HT | HT]; [rewrite Ec in HT; discriminate HT |].
        apply HT. destruct (decide (key ∈ quantities p)) as [Hk | Hk]; [exact Hk |].
        rewrite (Hout _ Hk), lookup_empty in Hcol. discriminate Hcol.
Qed.




End SaveClaims.

(** * Concrete runs *)

Import Sample.

(** The end-to-end run: of the five halos, those with indices 1, 2 and 4
    have a mass above the bound. *)
Lemma run_catalog_single_worker_witness :
  let after := _run false false (massive_halos, []) in
  comm_rank massive_halos = 0 /\ comm_size massive_halos = 1 /\
  after.1 = Ok None /\
  catalog after.2.1 =
    Some [ {[ "particle_mass" := VInt 20; "virial_radius" := VLength 200000 cm ]};
           {[ "particle_mass" := VInt 15; "virial_radius" := VLength 300 cm ]};
           {[ "particle_mass" := VInt 30; "virial_radius" := VLength 500000 cm ]} ] /\
  exists kept,
    RunSurvivors massive_halos (data_source massive_halos) [] kept after.2.2 /\
    catalog after.2.1 = Some (map snd (List.concat kept)) /\
    Forall (fun k => StronglySorted lt (map fst k)) kept.
Proof.
  intros after.
  split; [reflexivity |]. split; [reflexivity |]. split; [reflexivity |].
  split; [vm_compute; reflexivity |].
  exact (proj1 (run_catalog_single_worker false false massive_halos [] eq_refl eq_refl)
           None after.2.1 after.2.2 eq_refl).
Defined.

(** [F1] returns false: [F2], which would raise, is not called. *)
Lemma filter_false_stops_target_witness :
  let s1 := (new_target 3 3, ["sphere"]) in
  let s' := (new_target 3 3, ["sphere"; "F1"]) in
  actions short_circuit =
    [callback_entry (returning "sphere" VNone)] ++
    filter_entry (returning "F1" (VBool false)) ::
    [filter_entry (failing "F2");
     quantity_entry "mass" (QCallable (failing "Q"));
     callback_entry (failing "C")] /\
  Passes (Some five_halos) 3 [callback_entry (returning "sphere" VNone)]
    (new_target 3 3, []) s1 /\
  returning "F1" (VBool false) s1 = (Ok (VBool false), s') /\
  truthy (VBool false) = false /\
  action_loop (actions short_circuit) (Some five_halos) 3 true (new_target 3 3, [])
    = (Ok false, s') /\
  _process_target 3 3 true (Some five_halos) (short_circuit, [])
    = (Ok tt, (short_circuit, ["sphere"; "F1"])).
Proof.
  intros s1 s'.
  assert (HP : Passes (Some five_halos) 3 [callback_entry (returning "sphere" VNone)]
                 (new_target 3 3, []) s1).
  { exact (action_loop_returns (Some five_halos) 3
             [callback_entry (returning "sphere" VNone)]
             (new_target 3 3, []) s1 true eq_refl). }
  split; [reflexivity |]. split; [exact HP |].
  split; [reflexivity |]. split; [reflexivity |].
  exact (filter_false_stops_target 3 3 true (Some five_halos) short_circuit []
           [callback_entry (returning "sphere" VNone)]
           (returning "F1" (VBool false)) _ s1 (VBool false) (new_target 3 3)
           ["sphere"; "F1"] eq_refl HP eq_refl eq_refl).
Defined.

(** A radius of 2 km is stored as 200000 cm, the member count as it is. *)
Lemma survivor_normalised_once_witness :
  let t := set_quantity "members" (VInt 7)
             (set_quantity "virial_radius" (VLength 2 km) (new_target 0 0)) in
  let w' := ["radius"; "members"] in
  Passes None 0 (actions two_quantities) (new_target 0 0, []) (t, w') /\
  catalog two_quantities = Some [] /\
  exists r p' m,
    _process_target 0 0 false None (two_quantities, []) = (r, (p', w')) /\
    catalog p' = Some ([] ++ [m]) /\
    (forall key,
       m !! key =
       match target_quantities t !! key with
       | Some v => Some (if has_units v then convert_to_base v else v)
       | None => None
       end) /\
    (forall l, false = true -> target_list two_quantities = Some l ->
       r = Ok tt /\ target_list p' = Some (l ++ [set_quantities m t])) /\
    (false = false -> r = Ok tt).
Proof.
  intros t w'.
  assert (HP : Passes None 0 (actions two_quantities) (new_target 0 0, []) (t, w')).
  { exact (action_loop_returns None 0 (actions two_quantities)
             (new_target 0 0, []) (t, w') true eq_refl). }
  split; [exact HP |]. split; [reflexivity |].
  exact (survivor_normalised_once 0 0 false None two_quantities [] t w' [] HP eq_refl).
Defined.

Example survivor_normalised_entry :
  catalog (_process_target 0 0 false None (two_quantities, [])).2.1 =
  Some [ {[ "virial_radius" := VLength 200000 cm; "members" := VInt 7 ]} ].
Proof. vm_compute. reflexivity. Qed.

(** Halo 0 is rejected by the mass filter and never reaches the entry
    tagged "plot"; halo 1 passes the filter, reaches it, and the run ends
    there: "plot" and "later" are not called, halos 2 to 4 are not
    processed. *)
Lemma unknown_action_aborts_run_witness :
  let plot := {| action_type := "plot"; action := PCallable (returning "plot" VNone) |} in
  let pre := [quantity_entry "particle_mass" (QField (FieldTuple "halos" "particle_mass"));
              filter_entry (above "particle_mass" 10)] in
  let post := [callback_entry (returning "later" VNone)] in
  let t := set_quantity "particle_mass" (VInt 20) (new_target 1 1) in
  let p0 := started false with_plot in
  let error := RuntimeError "Action must be a callback, filter, or quantity." in
  data_source with_plot = [] ++ five_halos :: [] /\
  process_chunks [] false (p0, []) = (Ok tt, (p0, [])) /\
  chunk_size with_plot five_halos = Ok 5 /\
  parallel_objects (comm_rank with_plot) (comm_size with_plot) (seq 0 5)
    = [0] ++ 1 :: [2; 3; 4] /\
  process_targets [0] false five_halos (p0, []) = (Ok tt, (p0, [])) /\
  actions with_plot = pre ++ plot :: post /\
  ~ known_kind (action_type plot) /\
  Passes (Some five_halos) 1 pre (new_target 1 1, []) (t, []) /\
  action_loop (actions with_plot) (Some five_halos) 1 true (new_target 1 1, [])
    = (Raise error, (t, [])) /\
  _process_target 1 1 false (Some five_halos) (p0, []) = (Raise error, (p0, [])) /\
  _run false true (with_plot, []) = (Raise error, (p0, [])).
Proof.
  intros plot pre post t p0 error.
  assert (Hk : ~ known_kind (action_type plot))
    by (intros [Hk | [Hk | Hk]]; discriminate Hk).
  assert (HP : Passes (Some five_halos) 1 pre (new_target 1 1, []) (t, [])).
  { exact (action_loop_returns (Some five_halos) 1 pre (new_target 1 1, []) (t, [])
             true eq_refl). }
  do 8 (split; [first [reflexivity | exact Hk | exact HP] |]).
  exact (unknown_action_aborts_run false true with_plot [] [] five_halos [] p0 [] 5
           [0] 1 [2; 3; 4] p0 [] pre plot post t []
           eq_refl eq_refl eq_refl eq_refl eq_refl eq_refl Hk HP).
Defined.

(** C10, counterexample: the only action is a callback, so there is no
    filter and no quantity action; the callback stores a quantity, and the
    mapping appended for the target is not empty. *)
Lemma callback_quantities_reach_catalog :
  Forall (fun a => action_type a <> "filter") (actions annotating) /\
  Forall (fun a => action_type a <> "quantity") (actions annotating) /\
  _process_target 0 0 false None (annotating, []) =
    (Ok tt, (set_catalog (Some [ {[ "note" := VInt 1 ]} ]) annotating, ["annotate"])) /\
  ({[ "note" := VInt 1 ]} : gmap string value) <> ∅.
Proof.
  split; [repeat constructor; discriminate |].
  split; [repeat constructor; discriminate |].
  split; [vm_compute; reflexivity |].
  intros E. apply (f_equal (fun m : gmap string value => m !! "note")) in E.
  vm_compute in E. discriminate E.
Qed.

Lemma no_filter_target_survives_witness :
  let t := set_quantity "note" (VInt 1) (new_target 0 0) in
  Forall (fun a => action_type a <> "filter") (actions annotating) /\
  action_loop (actions annotating) None 0 true (new_target 0 0, [])
    = (Ok true, (t, ["annotate"])) /\
  catalog annotating = Some [] /\
  true = true /\
  exists r p',
    _process_target 0 0 true None (annotating, []) = (r, (p', ["annotate"])) /\
    catalog p' = Some ([] ++ [to_base <$> target_quantities t]) /\
    ((true = true -> is_Some (target_list annotating)) -> r = Ok tt) /\
    (actions annotating = [] -> to_base <$> target_quantities t = ∅).
Proof.
  intros t.
  assert (HF : Forall (fun a : @action_entry value world => action_type a <> "filter")
                 (actions annotating)) by (repeat constructor; discriminate).
  split; [exact HF |]. split; [reflexivity |]. split; [reflexivity |].
  exact (no_filter_target_survives 0 0 true None annotating [] true t ["annotate"] []
           HF eq_refl eq_refl).
Defined.

(** C3, counterexample: with [from_data_source] and without [field_type],
    the registered key "Y" is not looked up; it is requested as a bare
    field and appended as such.  And [field_type="halos"] alone, as in the
    docstring of [add_quantity], does look the key up: "virial_radius" is
    not registered, the call raises and nothing is appended. *)
Lemma add_quantity_branches_on_from_data_source :
  find (quantity_registry sample_registries) "Y" no_arguments
    = Ok (returning "Y" (VInt 3)) /\
  add_quantity sample_registries "Y" no_arguments true None empty_pipeline =
    (Ok tt,
     set_actions [quantity_entry "Y" (QField (FieldName "Y"))]
       (set_pipeline_quantities ["Y"]
          (set_field_quantities [FieldName "Y"] empty_pipeline))) /\
  quantity_entry "Y" (QField (FieldName "Y"))
    <> quantity_entry "Y" (QCallable (returning "Y" (VInt 3))) /\
  add_quantity sample_registries "virial_radius" no_arguments false (Some "halos")
    empty_pipeline
    = (Raise (KeyError "virial_radius"), empty_pipeline) /\
  add_quantity sample_registries "virial_radius" no_arguments false (Some "halos")
    empty_pipeline
    <> (Ok tt,
        set_actions
          [quantity_entry "virial_radius" (QField (FieldTuple "halos" "virial_radius"))]
          (set_pipeline_quantities ["virial_radius"]
             (set_field_quantities [FieldTuple "halos" "virial_radius"] empty_pipeline))).
Proof.
  split; [reflexivity |]. split; [reflexivity |].
  split; [discriminate |]. split; [reflexivity |].
  discriminate.
Qed.

Lemma add_quantity_branches_witness :
  (@None string = None /\
   find (quantity_registry sample_registries) "Y" no_arguments
     = Ok (returning "Y" (VInt 3)) /\
   add_quantity sample_registries "Y" no_arguments false None empty_pipeline =
     (Ok tt,
      set_actions [quantity_entry "Y" (QCallable (returning "Y" (VInt 3)))]
        (set_pipeline_quantities ["Y"] empty_pipeline))) /\
  add_quantity sample_registries "virial_radius" no_arguments true (Some "halos")
    empty_pipeline =
    (Ok tt,
     set_actions
       [quantity_entry "virial_radius" (QField (FieldTuple "halos" "virial_radius"))]
       (set_pipeline_quantities ["virial_radius"]
          (set_field_quantities [FieldTuple "halos" "virial_radius"] empty_pipeline))).
Proof.
  split.
  - split; [reflexivity |]. split; [reflexivity |].
    exact (proj1 (add_quantity_branches sample_registries "Y" no_arguments None
                    empty_pipeline) (returning "Y" (VInt 3)) eq_refl eq_refl).
  - exact (proj1 (proj2 (add_quantity_branches sample_registries "virial_radius"
                           no_arguments (Some "halos") empty_pipeline))).
Defined.

(** No callback, filter or quantity is registered as "nope". *)
Lemma failed_lookup_leaves_pipeline_witness :
  let e := KeyError "nope" in
  (find (callback_registry sample_registries) "nope" no_arguments = Raise e /\
   add_callback sample_registries "nope" no_arguments short_circuit
     = (Raise e, short_circuit)) /\
  (find (filter_registry sample_registries) "nope" no_arguments = Raise e /\
   add_filter sample_registries "nope" no_arguments short_circuit
     = (Raise e, short_circuit)) /\
  (find (quantity_registry sample_registries) "nope" no_arguments = Raise e /\
   add_quantity sample_registries "nope" no_arguments false (Some "halos") short_circuit
     = (Raise e, short_circuit)).
Proof.
  intros e.
  destruct (failed_lookup_leaves_pipeline sample_registries short_circuit e)
    as (Hcallback & Hfilter & Hquantity).
  split; [split; [reflexivity | exact (Hcallback "nope" no_arguments eq_refl)] |].
  split; [split; [reflexivity | exact (Hfilter "nope" no_arguments eq_refl)] |].
  split; [reflexivity | exact (Hquantity "nope" no_arguments (Some "halos") eq_refl)].
Defined.

(** The recipe "R" against the two calls made by hand. *)
Lemma recipe_expands_to_its_calls_witness :
  find (recipe_registry sample_registries) "R" no_arguments
    = Ok (issue_all sample_registries recipe_calls) /\
  add_recipe sample_registries "R" no_arguments empty_pipeline
    = (add_filter sample_registries "X" no_arguments ;;;
       add_quantity sample_registries "Y" no_arguments false None ;;;
       ret tt) empty_pipeline /\
  actions (add_recipe sample_registries "R" no_arguments empty_pipeline).2
    = [filter_entry (returning "X" (VBool true));
       quantity_entry "Y" (QCallable (returning "Y" (VInt 3)))] /\
  issue_all sample_registries
    ([AddCallback "sphere" no_arguments] ++
     AddRecipe "R" no_arguments :: [AddCallback "sphere" no_arguments]) empty_pipeline
  = issue_all sample_registries
      ([AddCallback "sphere" no_arguments] ++
       recipe_calls ++ [AddCallback "sphere" no_arguments]) empty_pipeline.
Proof.
  destruct (recipe_expands_to_its_calls sample_registries "R" no_arguments recipe_calls
              eq_refl) as [Hsame Hinline].
  split; [reflexivity |]. split; [exact (proj1 (Hsame empty_pipeline)) |].
  split; [reflexivity |]. apply Hinline.
Defined.





(** * More on the configuration methods *)

Section ConfigurationInvariants.
Context {V W : Type}.

Local Abbreviation pipeline := (@AnalysisPipeline V W).

Lemma same_engine_state_refl (p : pipeline) : same_engine_state p p.
Proof. repeat split. Qed.

Lemma same_engine_state_trans (p1 p2 p3 : pipeline) :
  same_engine_state p1 p2 -> same_engine_state p2 p3 -> same_engine_state p1 p3.
Proof. unfold same_engine_state. intuition congruence. Qed.

(** One call of [add_callback], [add_filter] or [add_quantity]: one entry
    when it returns, none when it raises. *)
Lemma issue_base (R : @registries V W) c (p : pipeline) r p' :
  base_call c ->
  issue R c p = (r, p') ->
  exists added,
    actions p' = actions p ++ added /\
    quantities p' = quantities p ++ omap quantity_key added /\
    field_quantities p' = field_quantities p ++ omap requested_field added /\
    Forall well_formed added /\
    same_engine_state p p' /\
    match r with
    | Ok _ => List.length added = 1
    | Raise _ => added = []
    end.
Proof.
  assert (Hnone : forall (q : pipeline) e,
             exists added : list (@action_entry V W),
               actions q = actions q ++ added /\
               quantities q = quantities q ++ omap quantity_key added /\
               field_quantities q = field_quantities q ++ omap requested_field added /\
               Forall well_formed added /\ same_engine_state q q /\
               match @Raise unit e with
               | Ok _ => List.length added = 1
               | Raise _ => added = []
               end).
  { intros q e. exists []. cbn. rewrite !app_nil_r.
    repeat split; constructor. }
  destruct c as [cb args | fl args | key args fds ft | rc args]; intros Hb E;
    [| | | destruct Hb]; cbn in E.
  - unfold add_callback, bind, lift in E.
    destruct (find (callback_registry R) cb args) as [f | e]; injection E as <- <-;
      [| apply (Hnone _ e)].
    exists [callback_entry f]. cbn. rewrite !app_nil_r.
    split; [reflexivity |]. split; [reflexivity |]. split; [reflexivity |].
    split; [| split; [repeat split | reflexivity]].
    constructor; [| constructor]. left. eexists. reflexivity.
  - unfold add_filter, bind, lift in E.
    destruct (find (filter_registry R) fl args) as [f | e]; injection E as <- <-;
      [| apply (Hnone _ e)].
    exists [filter_entry f]. cbn. rewrite !app_nil_r.
    split; [reflexivity |]. split; [reflexivity |]. split; [reflexivity |].
    split; [| split; [repeat split | reflexivity]].
    constructor; [| constructor]. right. left. eexists. reflexivity.
  - unfold add_quantity, bind, lift, modify, ret, append_action in E.
    destruct fds; cbn in E.
    + injection E as <- <-.
      exists [quantity_entry key
                (QField (match ft with
                         | None => FieldName key
                         | Some t => FieldTuple t key
                         end))].
      cbn. split; [reflexivity |]. split; [reflexivity |]. split; [reflexivity |].
      split; [| split; [repeat split | reflexivity]].
      constructor; [| constructor]. right. right. eexists _, _. reflexivity.
    + destruct (find (quantity_registry R) key args) as [f | e]; injection E as <- <-;
        [| apply (Hnone _ e)].
      exists [quantity_entry key (QCallable f)]. cbn. rewrite !app_nil_r.
      split; [reflexivity |]. split; [reflexivity |]. split; [reflexivity |].
      split; [| split; [repeat split | reflexivity]].
      constructor; [| constructor]. right. right. eexists _, _. reflexivity.
Qed.

Lemma issue_all_base (R : @registries V W) calls : forall (p : pipeline) r p',
  Forall base_call calls ->
  issue_all R calls p = (r, p') ->
  exists added,
    actions p' = actions p ++ added /\
    quantities p' = quantities p ++ omap quantity_key added /\
    field_quantities p' = field_quantities p ++ omap requested_field added /\
    Forall well_formed added /\
    same_engine_state p p' /\
    match r with
    | Ok _ => List.length added = List.length calls
    | Raise _ => List.length added < List.length calls
    end.
Proof.
  induction calls as [| c calls IH]; intros p r p' Hb E.
  - cbn in E. injection E as <- <-. exists []. cbn. rewrite !app_nil_r.
    repeat split; constructor.
  - apply Forall_cons in Hb as [Hc Hb]. cbn in E. unfold bind in E.
    destruct (issue R c p) as [r1 p1] eqn:E1.
    destruct (issue_base R c p r1 p1 Hc E1) as (a1 & Ha1 & Hq1 & Hf1 & Hw1 & Hs1 & Hn1).
    destruct r1 as [[] | e].
    + destruct (IH p1 r p' Hb E) as (a2 & Ha2 & Hq2 & Hf2 & Hw2 & Hs2 & Hn2).
      exists (a1 ++ a2). rewrite !omap_app, !app_assoc, <- Ha1, <- Hq1, <- Hf1.
      split; [exact Ha2 |]. split; [exact Hq2 |]. split; [exact Hf2 |].
      split; [now apply Forall_app |].
      split; [eapply same_engine_state_trans; eassumption |].
      rewrite length_app, Hn1. destruct r; cbn; lia.
    + injection E as <- <-. subst a1. exists [].
      split; [exact Ha1 |]. split; [exact Hq1 |]. split; [exact Hf1 |].
      split; [constructor |]. split; [exact Hs1 | cbn; lia].
Qed.

(** One call: the entry that goes with it when it returns, nothing when
    its lookup raises. *)
Lemma issue_adds (R : @registries V W) c (p : pipeline) r p' :
  base_call c ->
  issue R c p = (r, p') ->
  match r with
  | Ok _ => exists a, Adds R c a /\ actions p' = actions p ++ [a]
  | Raise e => Refuses R c e /\ p' = p
  end.
Proof.
  destruct c as [cb args | fl args | key args fds ft | rc args]; intros Hb E;
    [| | | destruct Hb]; cbn in E.
  - unfold add_callback, bind, lift in E.
    destruct (find (callback_registry R) cb args) as [f | e] eqn:Ef;
      injection E as <- <-.
    + exists (callback_entry f). split; [now constructor | reflexivity].
    + split; [now constructor | reflexivity].
  - unfold add_filter, bind, lift in E.
    destruct (find (filter_registry R) fl args) as [f | e] eqn:Ef;
      injection E as <- <-.
    + exists (filter_entry f). split; [now constructor | reflexivity].
    + split; [now constructor | reflexivity].
  - unfold add_quantity, bind, lift, modify, ret, append_action in E.
    destruct fds; cbn in E.
    + injection E as <- <-. eexists. split; [| reflexivity].
      destruct ft; constructor.
    + destruct (find (quantity_registry R) key args) as [f | e] eqn:Ef;
        injection E as <- <-.
      * exists (quantity_entry key (QCallable f)). split; [now constructor | reflexivity].
      * split; [now constructor | reflexivity].
Qed.

(** The entries added are those of the calls that returned, call by call;
    the call that raises is the first whose lookup fails. *)
Lemma issue_all_adds (R : @registries V W) calls : forall (p : pipeline) r p',
  Forall base_call calls ->
  issue_all R calls p = (r, p') ->
  exists added,
    actions p' = actions p ++ added /\
    Forall2 (Adds R) (take (List.length added) calls) added /\
    match r with
    | Ok _ => True
    | Raise e => exists c, calls !! List.length added = Some c /\ Refuses R c e
    end.
Proof.
  induction calls as [| c calls IH]; intros p r p' Hb E.
  - cbn in E. injection E as <- <-. exists []. rewrite app_nil_r.
    split; [reflexivity |]. split; [constructor | exact I].
  - apply Forall_cons in Hb as [Hc Hb]. cbn in E. unfold bind in E.
    destruct (issue R c p) as [r1 p1] eqn:E1.
    pose proof (issue_adds R c p r1 p1 Hc E1) as H1.
    destruct r1 as [[] | e].
    + destruct H1 as (a & Ha & Hp1).
      destruct (IH p1 r p' Hb E) as (rest & Hp' & HF & Hr).
      exists (a :: rest). rewrite Hp', Hp1, <- app_assoc.
      split; [reflexivity |]. split; [cbn; now constructor | exact Hr].
    + injection E as <- <-. destruct H1 as [Hr ->]. exists []. rewrite app_nil_r.
      split; [reflexivity |]. split; [constructor |]. exists c. split; [reflexivity | exact Hr].
Qed.

(** X1: a sequence of calls of [add_callback], [add_filter] and
    [add_quantity] only appends.  Each call that returns adds one entry,
    and it is the entry of that call: the callable that the registry of
    its kind gives for its name, under the tag of its kind, and for a
    quantity under its key; or, with [from_data_source], the field made
    of its key and [field_type].  The entries are in the order of the
    calls.  The first call whose lookup raises ends the sequence with its
    exception; it, and the calls after it, add none.  The keys appended
    to [quantities] are those of the quantity entries added, the fields
    appended to [field_quantities] are those that the added entries read,
    in the same order; nothing else of the pipeline changes. *)
Theorem configuration_appends_in_step (R : @registries V W) calls (p : pipeline) r p' :
  Forall base_call calls ->
  issue_all R calls p = (r, p') ->
  exists added,
    actions p' = actions p ++ added /\
    quantities p' = quantities p ++ omap quantity_key added /\
    field_quantities p' = field_quantities p ++ omap requested_field added /\
    Forall well_formed added /\
    same_engine_state p p' /\
    Forall2 (Adds R) (take (List.length added) calls) added /\
    match r with
    | Ok _ => List.length added = List.length calls
    | Raise e => List.length added < List.length calls /\
                 exists c, calls !! List.length added = Some c /\ Refuses R c e
    end.
Proof.
  intros Hb E.
  destruct (issue_all_base R calls p r p' Hb E) as (added & Ha & Hq & Hf & Hw & Hs & Hn).
  destruct (issue_all_adds R calls p r p' Hb E) as (added' & Ha' & HF & Hr).
  rewrite Ha in Ha'. apply app_inv_head in Ha'. subst added'.
  exists added. do 5 (split; [assumption |]). split; [exact HF |].
  destruct r; [exact Hn | split; [exact Hn | exact Hr]].
Qed.

(** X2: recipes that call recipes.  When every recipe that is reached is
    a sequence of configuration calls, the calls have the outcome of the
    flat sequence of [add_callback], [add_filter] and [add_quantity] calls
    obtained by replacing each [add_recipe] by the calls of its recipe. *)
Theorem nested_recipes_flatten (R : @registries V W) calls flat :
  ExpandsTo R calls flat ->
  Forall base_call flat /\
  forall p : pipeline, issue_all R calls p = issue_all R flat p.
Proof.
  induction 1 as [| c rest flat Hc _ [IHb IH]
                  | name args body flat_body rest flat Ef _ [IHb1 IH1] _ [IHb2 IH2]].
  - split; [constructor | reflexivity].
  - split; [now constructor |]. intros p. cbn. unfold bind.
    destruct (issue R c p) as [[[] | e] p1]; [apply IH | reflexivity].
  - split; [now apply Forall_app |]. intros p.
    assert (Er : add_recipe R name args p = issue_all R flat_body p)
      by (unfold add_recipe, bind, lift; rewrite Ef; apply IH1).
    rewrite issue_all_app.
    change (issue_all R (AddRecipe name args :: rest) p)
      with ((add_recipe R name args ;;; issue_all R rest) p).
    unfold bind. rewrite Er.
    destruct (issue_all R flat_body p) as [[[] | e] p1]; [apply IH2 | reflexivity].
Qed.

Lemma save_without_catalog ds ftypes (p : pipeline) (w : W) b :
  Named ds b ->
  catalog p = None ->
  _save ds None ftypes (p, w) = (Raise (AttributeError "catalog"), (p, w)).
Proof.
  intros HN Hc. unfold _save, bind, get, lift. cbn [fst snd].
  rewrite (get_basename_named _ _ HN), Hc. reflexivity.
Qed.

(** X3: the catalog exists only once [_run] has started.  On a pipeline
    that has been created and configured, but not run, [_save] without an
    explicit payload raises [AttributeError] and calls neither
    [save_as_dataset] nor changes the pipeline. *)
Theorem save_needs_a_run (R : @registries V W) calls rank size ds0 source ft dir
    r (p : pipeline) ds b ftypes (w : W) :
  Forall base_call calls ->
  issue_all R calls (__init__ rank size ds0 source ft dir) = (r, p) ->
  Named ds b ->
  _save ds None ftypes (p, w) = (Raise (AttributeError "catalog"), (p, w)).
Proof.
  intros Hb E HN.
  destruct (issue_all_base R calls _ r p Hb E) as (_ & _ & _ & _ & _ & Hs & _).
  apply (save_without_catalog ds ftypes p w b HN).
  destruct Hs as (_ & -> & _). reflexivity.
Qed.

End ConfigurationInvariants.

(** * More on the engine *)

Section EngineInvariants.
Context {V W : Type} `{PyValue V}.

Local Abbreviation target_state := (@AnalysisTarget V * W)%type.
Local Abbreviation pipeline := (@AnalysisPipeline V W).

Lemma fails_action_loop ds index pre a post (s s1 s' : target_state) e :
  Passes ds index pre s s1 ->
  Fails ds index a s1 e s' ->
  action_loop (pre ++ a :: post) ds index true s = (Raise e, s').
Proof.
  intros HP HF. rewrite (action_loop_app _ _ _ _ _ _ HP).
  destruct HF as [f s1 e s' E | f s1 e s' E | key f s1 e s' E | key r s1 e E];
    cbn; unfold bind, lift; cbn; rewrite E; reflexivity.
Qed.

(** The run ends where the loop over the actions of a target raises. *)
Lemma run_raises st sc (p : pipeline) (w : W)
    chs1 ch chs2 p1 w1 n before i after p2 w2 e t w3 :
  data_source p = chs1 ++ ch :: chs2 ->
  process_chunks chs1 st (started st p, w) = (Ok tt, (p1, w1)) ->
  chunk_size p ch = Ok n ->
  parallel_objects (comm_rank p) (comm_size p) (seq 0 n) = before ++ i :: after ->
  process_targets before st ch (p1, w1) = (Ok tt, (p2, w2)) ->
  action_loop (actions p) (Some ch) i true (new_target i i, w2) = (Raise e, (t, w3)) ->
  _run st sc (p, w) = (Raise e, (p2, w3)).
Proof.
  intros Hds E1 En Hpo E2 EL.
  pose proof (proj1 (started_config st p)) as Hcfg0.
  pose proof (process_chunks_config _ _ _ _ _ _ _ E1) as Hcfg1.
  pose proof (process_targets_config _ _ _ _ _ _ _ _ E2) as Hcfg2.
  pose proof (same_config_trans _ _ _ Hcfg0 Hcfg1) as Hp1.
  pose proof (same_config_trans _ _ _ Hp1 Hcfg2) as Hp2.
  assert (EP : _process_target i i st (Some ch) (p2, w2) = (Raise e, (p2, w3))).
  { eapply process_target_raised.
    replace (actions p2) with (actions p) by (symmetry; apply Hp2). exact EL. }
  rewrite run_unfold, Hds. unfold bind at 1. rewrite process_chunks_app.
  unfold bind at 1. rewrite E1. cbn [process_chunks].
  unfold bind at 1, get. unfold bind at 1, lift. cbn [fst].
  replace (chunk_size p1 ch) with (chunk_size p ch)
    by (unfold chunk_size; now replace (halo_field_type p1) with (halo_field_type p)
          by (symmetry; apply Hp1)).
  rewrite En.
  replace (comm_rank p1) with (comm_rank p) by (symmetry; apply Hp1).
  replace (comm_size p1) with (comm_size p) by (symmetry; apply Hp1).
  rewrite Hpo. unfold bind at 1. rewrite process_targets_app.
  unfold bind at 1. rewrite E2.
  cbn [process_targets]. unfold bind at 1. rewrite EP. reflexivity.
Qed.

(** X4: an action that raises ends the run.  When, for some target, the
    actions before an entry pass and that entry raises (its callable
    raises, or its field cannot be read from the chunk), [_run] raises the
    same exception in the state reached at that point: the pipeline is as
    the targets before left it, nothing is appended for the target, and
    the later entries, targets and chunks and the save are skipped. *)
Theorem failing_action_aborts_run st sc (p : pipeline) (w : W)
    chs1 ch chs2 p1 w1 n before i after p2 w2 pre a post s1 e t w3 :
  data_source p = chs1 ++ ch :: chs2 ->
  process_chunks chs1 st (started st p, w) = (Ok tt, (p1, w1)) ->
  chunk_size p ch = Ok n ->
  parallel_objects (comm_rank p) (comm_size p) (seq 0 n) = before ++ i :: after ->
  process_targets before st ch (p1, w1) = (Ok tt, (p2, w2)) ->
  actions p = pre ++ a :: post ->
  Passes (Some ch) i pre (new_target i i, w2) s1 ->
  Fails (Some ch) i a s1 e (t, w3) ->
  _process_target i i st (Some ch) (p2, w2) = (Raise e, (p2, w3)) /\
  _run st sc (p, w) = (Raise e, (p2, w3)).
Proof.
  intros Hds E1 En Hpo E2 Ha HP HF.
  assert (EL : action_loop (actions p) (Some ch) i true (new_target i i, w2)
               = (Raise e, (t, w3)))
    by (rewrite Ha; eapply fails_action_loop; eassumption).
  split; [| eapply run_raises; eassumption].
  eapply process_target_raised.
  replace (actions p2) with (actions p); [exact EL |]. symmetry.
  eapply same_config_trans; [| eapply process_targets_config; exact E2].
  eapply same_config_trans; [| eapply process_chunks_config; exact E1].
  apply started_config.
Qed.

Lemma process_target_in_step target index ds (p p' : pipeline) (w w' : W) r :
  retained_in_step p ->
  _process_target target index true ds (p, w) = (r, (p', w')) ->
  retained_in_step p'.
Proof.
  intros (targets & Hl & Hc). unfold _process_target.
  destruct (action_loop _ _ _ _ _) as [[[] | e] [t w1]]; cbn.
  - unfold bind, append_catalog, append_target_list. rewrite Hc. cbn. rewrite Hl.
    intros [= <- <- <-]. exists (targets ++ [normalised t]).
    cbn. split; [reflexivity |]. now rewrite map_app.
  - intros [= <- <- <-]. exists targets. auto.
  - intros [= <- <- <-]. exists targets. auto.
Qed.

Lemma process_targets_in_step ch idxs : forall (p p' : pipeline) (w w' : W) r,
  retained_in_step p ->
  process_targets idxs true ch (p, w) = (r, (p', w')) ->
  retained_in_step p'.
Proof.
  induction idxs as [| i rest IH]; intros p p' w w' r HI E; cbn in E.
  - injection E as <- <- <-. exact HI.
  - unfold bind in E.
    destruct (_process_target i i true (Some ch) (p, w)) as [[[] | e] [p1 w1]] eqn:E1.
    + eapply IH; [| exact E]. eapply process_target_in_step; eassumption.
    + injection E as <- <- <-. eapply process_target_in_step; eassumption.
Qed.

Lemma process_chunks_in_step chunks : forall (p p' : pipeline) (w w' : W) r,
  retained_in_step p ->
  process_chunks chunks true (p, w) = (r, (p', w')) ->
  retained_in_step p'.
Proof.
  induction chunks as [| ch rest IH]; intros p p' w w' r HI E; cbn in E.
  - injection E as <- <- <-. exact HI.
  - unfold bind, get, lift in E. cbn in E.
    destruct (chunk_size p ch) as [n | e].
    + destruct (process_targets _ true ch (p, w)) as [[[] | e] [p1 w1]] eqn:E1.
      * eapply IH; [| exact E]. eapply process_targets_in_step; eassumption.
      * injection E as <- <- <-. eapply process_targets_in_step; eassumption.
    + injection E as <- <- <-. exact HI.
Qed.

Lemma process_target_leaves_targets target index ds (p p' : pipeline) (w w' : W) r :
  _process_target target index false ds (p, w) = (r, (p', w')) ->
  target_list p' = target_list p.
Proof.
  unfold _process_target.
  destruct (action_loop _ _ _ _ _) as [[[] | e] [t w1]]; cbn.
  - unfold bind, append_catalog. destruct (catalog p); cbn; intros [= <- <- <-]; reflexivity.
  - intros [= <- <- <-]. reflexivity.
  - intros [= <- <- <-]. reflexivity.
Qed.

Lemma process_targets_leaves_targets ch idxs : forall (p p' : pipeline) (w w' : W) r,
  process_targets idxs false ch (p, w) = (r, (p', w')) ->
  target_list p' = target_list p.
Proof.
  induction idxs as [| i rest IH]; intros p p' w w' r E; cbn in E.
  - injection E as <- <- <-. reflexivity.
  - unfold bind in E.
    destruct (_process_target i i false (Some ch) (p, w)) as [[[] | e] [p1 w1]] eqn:E1.
    + rewrite (IH _ _ _ _ _ E). eapply process_target_leaves_targets; exact E1.
    + injection E as <- <- <-. eapply process_target_leaves_targets; exact E1.
Qed.

Lemma process_chunks_leaves_targets chunks : forall (p p' : pipeline) (w w' : W) r,
  process_chunks chunks false (p, w) = (r, (p', w')) ->
  target_list p' = target_list p.
Proof.
  induction chunks as [| ch rest IH]; intros p p' w w' r E; cbn in E.
  - injection E as <- <- <-. reflexivity.
  - unfold bind, get, lift in E. cbn in E.
    destruct (chunk_size p ch) as [n | e].
    + destruct (process_targets _ false ch (p, w)) as [[[] | e] [p1 w1]] eqn:E1.
      * rewrite (IH _ _ _ _ _ E). eapply process_targets_leaves_targets; exact E1.
      * injection E as <- <- <-. eapply process_targets_leaves_targets; exact E1.
    + injection E as <- <- <-. reflexivity.
Qed.

(** What is left of [_run] after the chunks: the state is that after the
    chunks, whether the save is asked for or not, succeeds or not. *)
Lemma run_state st sc (p p' : pipeline) (w w' : W) r :
  _run st sc (p, w) = (r, (p', w')) ->
  exists r1, process_chunks (data_source p) st (started st p, w) = (r1, (p', w')).
Proof.
  rewrite run_unfold. unfold bind at 1.
  destruct (process_chunks (data_source p) st (started st p, w)) as [[[] | e] [p1 w1]].
  - destruct sc.
    + unfold bind, get, ret. cbn [fst].
      pose proof (save_state (halos_ds p1) None None (p1, w1)) as Hsv.
      destruct (_save (halos_ds p1) None None (p1, w1)) as [[sv | e] s1];
        cbn in Hsv; subst s1; intros [= <- <- <-]; eauto.
    + intros [= <- <- <-]. eauto.
  - intros [= <- <- <-]. eauto.
Qed.

(** X5: with [save_targets], whatever the outcome of the run (also when
    it raises), the catalog and the list of retained targets are in step:
    the catalog entries are the quantities of the retained targets, one
    for one and in order.  Without [save_targets], [_run] does not touch
    [target_list]: what an earlier run retained is still there. *)
Theorem run_keeps_targets_in_step sc (p p' : pipeline) (w w' : W) r :
  (_run true sc (p, w) = (r, (p', w')) -> retained_in_step p') /\
  (_run false sc (p, w) = (r, (p', w')) -> target_list p' = target_list p).
Proof.
  split; intros E; destruct (run_state _ _ _ _ _ _ _ E) as [r1 E1].
  - eapply process_chunks_in_step; [| exact E1].
    exists []. split; reflexivity.
  - rewrite (process_chunks_leaves_targets _ _ _ _ _ _ E1). reflexivity.
Qed.

End EngineInvariants.

(** * How many targets a run keeps *)

Section Counting.
Context {V W : Type} `{PyValue V}.

Local Abbreviation pipeline := (@AnalysisPipeline V W).

Lemma run_ok_chunks st sc (p p' : pipeline) (w w' : W) r :
  _run st sc (p, w) = (Ok r, (p', w')) ->
  process_chunks (data_source p) st (started st p, w) = (Ok tt, (p', w')).
Proof.
  rewrite run_unfold. unfold bind at 1.
  destruct (process_chunks (data_source p) st (started st p, w)) as [[[] | e] [p1 w1]];
    [| discriminate].
  destruct sc.
  - unfold bind, get, ret. cbn [fst].
    pose proof (save_state (halos_ds p1) None None (p1, w1)) as Hsv.
    destruct (_save (halos_ds p1) None None (p1, w1)) as [[sv | e] s1];
      cbn in Hsv; subst s1; [| discriminate]. intros [= _ <- <-]. reflexivity.
  - intros [= _ <- <-]. reflexivity.
Qed.

Lemma survivors_count acts (ch : @chunk V) idxs (w w' : W) kept :
  Survivors acts ch idxs w kept w' ->
  List.length kept <= List.length idxs /\
  (Forall (fun a => action_type a <> "filter") acts -> map fst kept = idxs) /\
  (acts = [] -> Forall (fun e => e.2 = ∅) kept).
Proof.
  induction 1 as [w | i rest w t w1 kept w2 HP _ (IHl & IHf & IHe)
                  | i rest w t w1 kept w2 HR _ (IHl & IHf & IHe)]; cbn.
  - repeat split; [lia | constructor].
  - split; [lia |]. split; [intros HF; now rewrite IHf |].
    intros ->. constructor; [| now apply IHe].
    inversion HP; subst. cbn. apply fmap_empty.
  - split; [lia |]. split.
    + intros HF. exfalso. eapply no_filter_not_rejected; eassumption.
    + intros ->. destruct HR as (pre & f & post & s1 & r & Hnil & _).
      destruct pre; discriminate Hnil.
Qed.

Lemma run_survivors_count (p : pipeline) chunks (w w' : W) kept : forall sizes,
  RunSurvivors p chunks w kept w' ->
  Forall2 (fun ch n => chunk_size p ch = Ok n) chunks sizes ->
  List.length (List.concat kept) <= sum_list sizes /\
  (Forall (fun a => action_type a <> "filter") (actions p) ->
   List.length (List.concat kept) = sum_list sizes) /\
  (actions p = [] -> Forall (eq ∅) (map snd (List.concat kept))).
Proof.
  intros sizes HR. revert sizes.
  induction HR as [| ch rest n w k w1 kept w2 Hn HS _ IH]; intros sizes HF.
  - apply Forall2_nil_inv_l in HF as ->. cbn. repeat split; [lia | constructor].
  - apply Forall2_cons_inv_l in HF as (n' & sizes' & Hn' & HF & ->).
    rewrite Hn in Hn'. injection Hn' as <-.
    destruct (IH _ HF) as (IHl & IHf & IHe).
    destruct (survivors_count _ _ _ _ _ _ HS) as (Hl & Hf & He).
    rewrite length_seq in Hl. cbn. rewrite length_app, map_app.
    split; [lia |]. split.
    + intros Hno. rewrite (IHf Hno).
      apply (f_equal (@List.length nat)) in Hf; [| exact Hno].
      rewrite length_map, length_seq in Hf. lia.
    + intros Ha. apply Forall_app. split; [| now apply IHe].
      apply Forall_forall. intros m Hm. apply list_elem_of_fmap in Hm as (e & -> & He').
      specialize (He Ha). eapply Forall_forall in He; [| exact He']. now rewrite He.
Qed.

(** X6: only filters drop targets.  On a single worker, the catalog of a
    run that returns never has more entries than the chunks have objects;
    when no action of the list is a filter it has one entry per object,
    and when the list is empty each entry is the empty mapping. *)
Theorem run_drops_only_by_filters st sc (p p' : pipeline) (w w' : W) r sizes :
  comm_rank p = 0 -> comm_size p = 1 ->
  Forall2 (fun ch n => chunk_size p ch = Ok n) (data_source p) sizes ->
  _run st sc (p, w) = (Ok r, (p', w')) ->
  exists cat,
    catalog p' = Some cat /\
    List.length cat <= sum_list sizes /\
    (Forall (fun a => action_type a <> "filter") (actions p) ->
     List.length cat = sum_list sizes) /\
    (actions p = [] -> cat = replicate (sum_list sizes) ∅).
Proof.
  intros Hr Hs HF E. apply run_ok_chunks in E.
  destruct (started_config st p) as (Hcfg0 & Hc0 & Hl0).
  assert (Hr0 : comm_rank (started st p) = 0) by (rewrite <- Hr; apply Hcfg0).
  assert (Hs0 : comm_size (started st p) = 1) by (rewrite <- Hs; apply Hcfg0).
  destruct (process_chunks_sound _ _ _ _ _ _ _ Hr0 Hs0 Hc0 Hl0 E) as (kept & HR & Hc & _).
  assert (HRp : RunSurvivors p (data_source p) w kept w')
    by (eapply run_survivors_config; [| | exact HR]; apply Hcfg0).
  destruct (run_survivors_count _ _ _ _ _ _ HRp HF) as (Hle & Hno & Hempty).
  exists (map snd (List.concat kept)). rewrite length_map.
  split; [exact Hc |]. split; [exact Hle |]. split; [exact Hno |].
  intros Ha. symmetry. apply replicate_as_Forall_2; [| now apply Hempty].
  rewrite length_map. apply Hno. rewrite Ha. constructor.
Qed.

Lemma process_chunks_without_objects st chunks (p : pipeline) (w : W) :
  Forall (fun ch => chunk_size p ch = Ok 0) chunks ->
  process_chunks chunks st (p, w) = (Ok tt, (p, w)).
Proof.
  induction 1 as [| ch rest Hn _ IH]; cbn; [reflexivity |].
  unfold bind, get, lift. cbn. rewrite Hn. cbn. exact IH.
Qed.

(** X7: a run over nothing.  When the data source has no chunk, or only
    chunks without objects, [_run] with [save_catalog] calls no action at
    all, whatever the action list and the number of workers, and writes a
    file with [num_halos] 0 and an empty payload; the catalog is the empty
    list. *)
Theorem run_over_nothing_saves_empty_catalog st (p : pipeline) (w : W) b :
  Forall (fun ch => chunk_size p ch = Ok 0) (data_source p) ->
  Named (halos_ds p) b ->
  exists s,
    _run st true (p, w) = (Ok (Some s), (started st p, w)) /\
    catalog (started st p) = Some [] /\
    saved_ds (written s) = halos_ds p /\
    num_halos (saved_extra_attrs (written s)) = 0 /\
    saved_data (written s) = ∅.
Proof.
  intros Hn HN.
  destruct (started_config st p) as (Hcfg0 & Hc0 & _).
  assert (Hn0 : Forall (fun ch => chunk_size (started st p) ch = Ok 0) (data_source p)).
  { eapply Forall_impl; [exact Hn |]. intros ch Hch. unfold chunk_size in *.
    now replace (halo_field_type (started st p)) with (halo_field_type p)
      by (symmetry; apply Hcfg0). }
  assert (HN0 : Named (halos_ds (started st p)) b)
    by (now replace (halos_ds (started st p)) with (halos_ds p) by (symmetry; apply Hcfg0)).
  assert (HP : payload_available (started st p) None).
  { exists []. split; [exact Hc0 |]. split; [constructor | congruence]. }
  assert (HT : field_types_cover (started st p) None None) by (left; exact Hc0).
  destruct (save_returns (halos_ds (started st p)) None None (started st p) w b HN0 HP HT)
    as (n & d & E & cat & Hcat & -> & Hd & _).
  rewrite Hc0 in Hcat. injection Hcat as <-. rewrite (Hd eq_refl) in E.
  eexists. split; [| split; [exact Hc0 |]].
  - rewrite run_unfold. unfold bind at 1.
    rewrite (process_chunks_without_objects st _ _ w Hn0).
    unfold bind, get, ret. cbn [fst]. rewrite E. reflexivity.
  - cbn. split; [apply Hcfg0 |]. split; reflexivity.
Qed.

End Counting.

(** * More on the catalog writer *)

Section SaveInvariants.
Context {V W : Type}.

Local Abbreviation pipeline := (@AnalysisPipeline V W).

Lemma get_basename_inv ds b : get_basename ds = Ok b -> Named ds b.
Proof.
  destruct ds as [entries | attributes with_arr]; cbn.
  - destruct (entries !! "basename") as [b' |] eqn:E; cbn; intros [= <-].
    + now apply NamedDict.
    + now apply UnnamedDict.
  - destruct (attributes !! "basename") as [b' |] eqn:E; [| discriminate].
    intros [= <-]. now apply NamedObject.
Qed.

Lemma column_inv key (cat : list (gmap string V)) col :
  column key cat = Ok col -> Forall (fun halo => is_Some (halo !! key)) cat.
Proof.
  revert col. induction cat as [| halo cat IH]; intros col E; [constructor |].
  cbn in E. destruct (halo !! key) as [v |] eqn:Ev; [| discriminate E].
  destruct (column key cat) as [vs | e]; [| discriminate E].
  constructor; [eauto | eapply IH; reflexivity].
Qed.

Lemma build_data_inv ds (cat : list (gmap string V)) keys : forall data d,
  build_data ds keys cat data = Ok d ->
  Forall (fun key => Forall (fun halo => is_Some (halo !! key)) cat) keys /\
  (keys <> [] -> has_arr ds = true).
Proof.
  induction keys as [| k keys IH]; intros data d E; [split; [constructor | congruence] |].
  cbn in E. destruct (has_arr ds) eqn:Ea; [| discriminate E].
  destruct (column k cat) as [col | e] eqn:Ec; [| discriminate E].
  split; [| reflexivity].
  constructor; [eapply column_inv; exact Ec | eapply IH; exact E].
Qed.

Lemma entries_of_keys (cat : list (gmap string V)) (keys : list string) :
  Forall (fun key => Forall (fun halo : gmap string V => is_Some (halo !! key)) cat) keys ->
  Forall (fun halo : gmap string V => Forall (fun key => is_Some (halo !! key)) keys) cat.
Proof.
  intros HF. apply Forall_forall. intros halo Hhalo.
  apply Forall_forall. intros key Hkey.
  eapply Forall_forall in HF; [| exact Hkey].
  eapply Forall_forall in HF; [exact HF | exact Hhalo].
Qed.

(** [_save] returns only for a dataset with a base name, or a dict, a
    payload that can be built, and a type for each field of it. *)
Lemma save_inversion ds data ftypes (p : pipeline) (w : W) s st :
  _save ds data ftypes (p, w) = (Ok s, st) ->
  (exists b, Named ds b) /\ payload_available p data /\ field_types_cover p data ftypes.
Proof.
  unfold _save, bind, get, lift, ret. cbn [fst snd].
  destruct (get_basename ds) as [b | e] eqn:Eb; [| discriminate].
  intros E. split; [exists b; now apply get_basename_inv |].
  destruct data as [given |]; cbn.
  - destruct (given !! _target_id_field) as [ids |]; [| discriminate E].
    split; [eauto |]. cbn [fst snd] in E.
    destruct (save_as_dataset _ _ _ _ _) as [call | e] eqn:Ec; [| discriminate E].
    apply save_as_dataset_ok in Ec as (_ & _ & _ & _ & _ & Hu).
    now apply untyped_field_none.
  - destruct (catalog p) as [cat |]; [| discriminate E].
    destruct cat as [| halo cat].
    { split; [| now left]. exists []. split; [reflexivity |].
      split; [constructor | congruence]. }
    cbn [List.length Nat.ltb Nat.leb] in E.
    destruct (build_data (halos_ds p) (quantities p) (halo :: cat) ∅) as [d | e] eqn:Ed;
      [| discriminate E].
    cbn [fst snd] in E.
    destruct (save_as_dataset _ _ _ _ _) as [call | e] eqn:Ec; [| discriminate E].
    apply save_as_dataset_ok in Ec as (_ & _ & _ & _ & _ & Hu).
    destruct (build_data_inv _ _ _ _ _ Ed) as [HF Harr].
    split.
    + exists (halo :: cat). split; [reflexivity |].
      split; [now apply entries_of_keys | intros _; exact Harr].
    + right. intros key Hkey.
      destruct (build_data_spec (halos_ds p) (halo :: cat) (quantities p) ∅ Harr HF)
        as (d' & Ed' & Hin & _).
      rewrite Ed in Ed'. injection Ed' as <-.
      destruct (Hin key Hkey) as (col & Hcol & _).
      apply (proj1 (untyped_field_none d _) Hu). eauto.
Qed.


(** X8: [_save] returns exactly when three things hold.  The dataset is a
    dict or has a [basename] attribute.  The payload can be built: an
    explicit payload has the id field; else there is a catalog, each entry
    of which has every configured key, and [self.halos_ds] has [arr]
    unless the catalog is empty or no key is configured.  And
    [save_as_dataset] finds a type for every field of the payload, in the
    explicit field types or, by default, among the configured keys.  In
    every other case [_save] raises; in no case does it change the
    pipeline. *)
Theorem save_returns_exactly_when ds data ftypes (p : pipeline) (w : W) :
  ((exists s, _save ds data ftypes (p, w) = (Ok s, (p, w))) <->
   (exists b, Named ds b) /\ payload_available p data /\
   field_types_cover p data ftypes) /\
  ((exists e, _save ds data ftypes (p, w) = (Raise e, (p, w))) <->
   ~ ((exists b, Named ds b) /\ payload_available p data /\
      field_types_cover p data ftypes)).
Proof.
  assert (Hiff : (exists s, _save ds data ftypes (p, w) = (Ok s, (p, w))) <->
                 (exists b, Named ds b) /\ payload_available p data /\
                 field_types_cover p data ftypes).
  { split.
    - intros [s E]. eapply save_inversion. exact E.
    - intros ([b HN] & HP & HT).
      destruct (save_returns ds data ftypes p w b HN HP HT) as (n & d & E & _). eauto. }
  split; [exact Hiff |].
  pose proof (save_state ds data ftypes (p, w)) as Hst.
  destruct (_save ds data ftypes (p, w)) as [[s | e] st] eqn:E; cbn in Hst; subst st.
  - split.
    + intros [e' [=]].
    + intros Hn. exfalso. apply Hn. apply Hiff. eauto.
  - split.
    + intros _ Hc. apply Hiff in Hc as [s [=]].
    + eauto.
Qed.


End SaveInvariants.

Section RunAndSave.
Context {V W : Type} `{PyValue V}.

Local Abbreviation pipeline := (@AnalysisPipeline V W).


End RunAndSave.

(** * Runs in a row, and quantities read from the chunk *)

Section Reruns.
Context {V W : Type} `{PyValue V}.

Local Abbreviation pipeline := (@AnalysisPipeline V W).

Lemma started_again st (p p1 : pipeline) :
  same_config p p1 ->
  (st = false -> target_list p1 = target_list p) ->
  started st p1 = started st p.
Proof.
  destruct p, p1. unfold same_config. cbn.
  intros (-> & -> & -> & -> & -> & -> & -> & -> & ->) Hl.
  destruct st; cbn; [reflexivity |]. now rewrite (Hl eq_refl).
Qed.

(** X11: runs do not accumulate.  [_run] starts from an empty catalog
    (and an empty target list with [save_targets]): after a first run,
    whatever its outcome, a run with [save_targets] from the pipeline it
    left does what it would do from the pipeline before the first run, and
    so does a run without [save_targets] if the first run did not retain
    targets either. *)
Theorem runs_do_not_accumulate st1 sc1 (p p1 : pipeline) (w w1 : W) r :
  _run st1 sc1 (p, w) = (r, (p1, w1)) ->
  (forall sc w2, _run true sc (p1, w2) = _run true sc (p, w2)) /\
  (st1 = false -> forall sc w2, _run false sc (p1, w2) = _run false sc (p, w2)).
Proof.
  intros E. destruct (run_state _ _ _ _ _ _ _ E) as [r1 E1].
  pose proof (process_chunks_config _ _ _ _ _ _ _ E1) as Hcfg1.
  pose proof (same_config_trans _ _ _ (proj1 (started_config st1 p)) Hcfg1) as Hcfg.
  assert (Hds : data_source p1 = data_source p) by apply Hcfg.
  split.
  - intros sc w2. rewrite !run_unfold, Hds, (started_again true p p1 Hcfg); [reflexivity |].
    discriminate.
  - intros -> sc w2. rewrite !run_unfold, Hds, (started_again false p p1 Hcfg); [reflexivity |].
    intros _. now rewrite (process_chunks_leaves_targets _ _ _ _ _ _ E1).
Qed.

Lemma field_loop (ch : @chunk V) i fields : forall (t : @AnalysisTarget V) (w : W),
  Forall (fun kr => exists col v, ch kr.2 = Some col /\ col !! i = Some v) fields ->
  exists t',
    action_loop (field_entries fields) (Some ch) i true (t, w) = (Ok true, (t', w)) /\
    (forall key, key ∉ map fst fields ->
       target_quantities t' !! key = target_quantities t !! key) /\
    (NoDup (map fst fields) ->
     forall key ref, (key, ref) ∈ fields ->
       exists col v, ch ref = Some col /\ col !! i = Some v /\
                     target_quantities t' !! key = Some v).
Proof.
  induction fields as [| [k r] rest IH]; intros t w HF.
  - exists t. split; [reflexivity |]. split; [reflexivity |].
    intros _ key ref Hin. now apply elem_of_nil in Hin.
  - apply Forall_cons in HF as [(col & v & Hcol & Hv) HF]. cbn in Hcol, Hv.
    destruct (IH (set_quantity k v t) w HF) as (t' & EL & Hout & Hin).
    exists t'. split; [| split].
    + cbn. unfold bind, lift, store, modify. cbn. rewrite Hcol, Hv. cbn. exact EL.
    + intros key Hkey. cbn in Hkey. apply not_elem_of_cons in Hkey as [Hne Hkey].
      rewrite (Hout _ Hkey). cbn. now apply lookup_insert_ne.
    + cbn. intros Hnd key ref Hmem. apply NoDup_cons in Hnd as [Hk Hnd].
      apply elem_of_cons in Hmem as [[= -> ->] | Hmem].
      * exists col, v. split; [exact Hcol |]. split; [exact Hv |].
        rewrite (Hout _ Hk). cbn. apply lookup_insert_eq.
      * now apply Hin.
Qed.

(** X12: quantities read from the data source.  When the action list is
    made of field quantities with distinct keys, and the chunk has each of
    the fields with a value at the index of the target, the target is kept
    without any callable being called (the world is as before), and the
    mapping appended for it holds, under each key, the value of its field
    at that index, converted to base units if it has units, and no other
    key. *)
Theorem field_quantities_copy_chunk (ch : @chunk V) i fields (p : pipeline) (w : W) c :
  actions p = field_entries fields ->
  NoDup (map fst fields) ->
  Forall (fun kr => exists col v, ch kr.2 = Some col /\ col !! i = Some v) fields ->
  catalog p = Some c ->
  exists m,
    _process_target i i false (Some ch) (p, w)
      = (Ok tt, (set_catalog (Some (c ++ [m])) p, w)) /\
    (forall key ref, (key, ref) ∈ fields ->
       exists col v, ch ref = Some col /\ col !! i = Some v /\
                     m !! key = Some (if has_units v then convert_to_base v else v)) /\
    (forall key, key ∉ map fst fields -> m !! key = None).
Proof.
  intros Ha Hnd HF Hc.
  destruct (field_loop ch i fields (new_target i i) w HF) as (t & EL & Hout & Hin).
  rewrite <- Ha in EL.
  exists (to_base <$> target_quantities t).
  split; [| split].
  - rewrite (process_target_kept _ _ _ _ _ _ _ _ _ EL Hc). reflexivity.
  - intros key ref Hmem. destruct (Hin Hnd key ref Hmem) as (col & v & Hcol & Hv & Hq).
    exists col, v. split; [exact Hcol |]. split; [exact Hv |].
    rewrite lookup_fmap, Hq. reflexivity.
  - intros key Hkey. rewrite lookup_fmap, (Hout _ Hkey). reflexivity.
Qed.

End Reruns.

(** * More concrete runs *)

(** Three calls; the second names a filter that is not registered. *)
Lemma configuration_appends_in_step_witness :
  let calls := [AddQuantity "virial_radius" no_arguments true (Some "halos");
                AddFilter "nope" no_arguments;
                AddCallback "sphere" no_arguments] in
  let p' := set_actions
              [quantity_entry "virial_radius" (QField (FieldTuple "halos" "virial_radius"))]
              (set_pipeline_quantities ["virial_radius"]
                 (set_field_quantities [FieldTuple "halos" "virial_radius"] empty_pipeline)) in
  Forall base_call calls /\
  issue_all sample_registries calls empty_pipeline = (Raise (KeyError "nope"), p') /\
  exists added,
    actions p' = actions empty_pipeline ++ added /\
    quantities p' = quantities empty_pipeline ++ omap quantity_key added /\
    field_quantities p' = field_quantities empty_pipeline ++ omap requested_field added /\
    Forall well_formed added /\
    same_engine_state empty_pipeline p' /\
    Forall2 (Adds sample_registries) (take (List.length added) calls) added /\
    List.length added < List.length calls /\
    exists c, calls !! List.length added = Some c /\
              Refuses sample_registries c (KeyError "nope").
Proof.
  intros calls p'.
  assert (Hb : Forall base_call calls) by (repeat constructor).
  split; [exact Hb |]. split; [reflexivity |].
  exact (configuration_appends_in_step sample_registries calls empty_pipeline
           (Raise (KeyError "nope")) p' Hb eq_refl).
Defined.

(** "outer" calls "R": three flat calls. *)
Lemma nested_recipes_flatten_witness :
  let flat := [AddCallback "sphere" no_arguments;
               AddFilter "X" no_arguments;
               AddQuantity "Y" no_arguments false None] in
  ExpandsTo nested_registries [AddRecipe "outer" no_arguments] flat /\
  Forall base_call flat /\
  (forall p : @AnalysisPipeline value world,
     issue_all nested_registries [AddRecipe "outer" no_arguments] p
     = issue_all nested_registries flat p) /\
  actions (add_recipe nested_registries "outer" no_arguments empty_pipeline).2
  = [callback_entry (returning "sphere" VNone);
     filter_entry (returning "X" (VBool true));
     quantity_entry "Y" (QCallable (returning "Y" (VInt 3)))].
Proof.
  intros flat.
  assert (HE : ExpandsTo nested_registries [AddRecipe "outer" no_arguments] flat).
  { apply (ExpandsTo_recipe nested_registries "outer" no_arguments outer_calls
             flat [] []); [reflexivity | | constructor].
    apply ExpandsTo_base; [exact I |].
    apply (ExpandsTo_recipe nested_registries "R" no_arguments recipe_calls
             recipe_calls [] []); [reflexivity | | constructor].
    repeat (apply ExpandsTo_base; [exact I |]). constructor. }
  split; [exact HE |].
  destruct (nested_recipes_flatten nested_registries _ _ HE) as [Hb Hsame].
  split; [exact Hb |]. split; [exact Hsame | reflexivity].
Defined.

(** A pipeline created and configured with one callback, then saved. *)
Lemma save_needs_a_run_witness :
  let created := __init__ 0 1 (DictDataset ∅) ([] : list (@chunk value)) "halos" None in
  let p := set_actions [callback_entry (returning "sphere" VNone)] created in
  Forall base_call [AddCallback "sphere" (no_arguments : @arguments value)] /\
  issue_all sample_registries [AddCallback "sphere" no_arguments] created = (Ok tt, p) /\
  Named (DictDataset ∅) None /\
  _save (DictDataset ∅) None None (p, ([] : world))
    = (Raise (AttributeError "catalog"), (p, [])).
Proof.
  intros created p.
  assert (Hb : Forall base_call [AddCallback "sphere" (no_arguments : @arguments value)])
    by (repeat constructor).
  assert (HN : Named (DictDataset ∅) None) by (apply UnnamedDict; reflexivity).
  split; [exact Hb |]. split; [reflexivity |]. split; [exact HN |].
  exact (save_needs_a_run sample_registries _ 0 1 (DictDataset ∅) [] "halos" None
           (Ok tt) p (DictDataset ∅) None None [] Hb eq_refl HN).
Defined.

(** Halo 0 is rejected before the spin is read; halo 1 passes the filter,
    and the missing field ends the run with [KeyError]. *)
Lemma failing_action_aborts_run_witness :
  let pre := [quantity_entry "particle_mass" (QField (FieldTuple "halos" "particle_mass"));
              filter_entry (above "particle_mass" 10)] in
  let spin := quantity_entry "spin" (QField (FieldTuple "halos" "spin")) in
  let post := [callback_entry (returning "later" VNone)] in
  let t := set_quantity "particle_mass" (VInt 20) (new_target 1 1) in
  let p0 := started true with_spin in
  data_source with_spin = [] ++ five_halos :: [] /\
  process_chunks [] true (p0, []) = (Ok tt, (p0, [])) /\
  chunk_size with_spin five_halos = Ok 5 /\
  parallel_objects (comm_rank with_spin) (comm_size with_spin) (seq 0 5)
    = [0] ++ 1 :: [2; 3; 4] /\
  process_targets [0] true five_halos (p0, []) = (Ok tt, (p0, [])) /\
  actions with_spin = pre ++ spin :: post /\
  Passes (Some five_halos) 1 pre (new_target 1 1, []) (t, []) /\
  Fails (Some five_halos) 1 spin (t, []) (KeyError "spin") (t, []) /\
  _process_target 1 1 true (Some five_halos) (p0, []) = (Raise (KeyError "spin"), (p0, [])) /\
  _run true true (with_spin, []) = (Raise (KeyError "spin"), (p0, [])).
Proof.
  intros pre spin post t p0.
  assert (HP : Passes (Some five_halos) 1 pre (new_target 1 1, []) (t, [])).
  { exact (action_loop_returns (Some five_halos) 1 pre (new_target 1 1, []) (t, [])
             true eq_refl). }
  assert (HF : Fails (Some five_halos) 1 spin (t, ([] : world)) (KeyError "spin") (t, []))
    by (apply FailsField; reflexivity).
  do 6 (split; [reflexivity |]). split; [exact HP |]. split; [exact HF |].
  exact (failing_action_aborts_run true true with_spin [] [] five_halos [] p0 [] 5
           [0] 1 [2; 3; 4] p0 [] pre spin post (t, []) (KeyError "spin") t []
           eq_refl eq_refl eq_refl eq_refl eq_refl eq_refl HP HF).
Defined.

(** The three massive halos, retained. *)
Lemma run_keeps_targets_in_step_witness :
  let after := _run true false (massive_halos, []) in
  retained_in_step after.2.1 /\
  (map target_index <$> target_list after.2.1) = Some [1; 2; 4] /\
  target_list (_run false false (massive_halos, [])).2.1 = target_list massive_halos.
Proof.
  intros after.
  split; [| split; [reflexivity |]].
  - exact (proj1 (run_keeps_targets_in_step false massive_halos after.2.1 [] after.2.2
                    after.1) eq_refl).
  - exact (proj2 (run_keeps_targets_in_step false massive_halos
                    (_run false false (massive_halos, [])).2.1 []
                    (_run false false (massive_halos, [])).2.2
                    (_run false false (massive_halos, [])).1) eq_refl).
Defined.

(** Five halos, one filter: at most five entries. *)
Lemma run_drops_only_by_filters_witness :
  let after := _run false false (massive_halos, []) in
  comm_rank massive_halos = 0 /\ comm_size massive_halos = 1 /\
  Forall2 (fun ch n => chunk_size massive_halos ch = Ok n) (data_source massive_halos) [5] /\
  after.1 = Ok None /\
  exists cat,
    catalog after.2.1 = Some cat /\
    List.length cat <= sum_list [5] /\
    (Forall (fun a => action_type a <> "filter") (actions massive_halos) ->
     List.length cat = sum_list [5]) /\
    (actions massive_halos = [] -> cat = replicate (sum_list [5]) ∅).
Proof.
  intros after.
  assert (HF : Forall2 (fun ch n => chunk_size massive_halos ch = Ok n)
                 (data_source massive_halos) [5])
    by (repeat constructor).
  split; [reflexivity |]. split; [reflexivity |]. split; [exact HF |].
  split; [reflexivity |].
  exact (run_drops_only_by_filters false false massive_halos after.2.1 [] after.2.2
           None [5] eq_refl eq_refl HF eq_refl).
Defined.

(** No chunk: the callback that would raise is never called. *)
Lemma run_over_nothing_saves_empty_catalog_witness :
  Forall (fun ch => chunk_size no_chunks ch = Ok 0) (data_source no_chunks) /\
  Named (halos_ds no_chunks) (Some "halos_64.0.bin") /\
  exists s,
    _run true true (no_chunks, ([] : world)) = (Ok (Some s), (started true no_chunks, [])) /\
    catalog (started true no_chunks) = Some [] /\
    saved_ds (written s) = halos_ds no_chunks /\
    num_halos (saved_extra_attrs (written s)) = 0 /\
    saved_data (written s) = ∅.
Proof.
  assert (HN : Named (halos_ds no_chunks) (Some "halos_64.0.bin"))
    by (apply NamedObject; reflexivity).
  assert (HF : Forall (fun ch => chunk_size no_chunks ch = Ok 0) (data_source no_chunks))
    by constructor.
  split; [exact HF |]. split; [exact HN |].
  exact (run_over_nothing_saves_empty_catalog true no_chunks [] (Some "halos_64.0.bin")
           HF HN).
Defined.

(** Four calls of [_save].  An object without [basename]: it raises.  A
    dict without the entry, a payload and a type for each of its fields:
    it returns.  Two catalog entries, and a dict without [arr] in the
    place of the halo catalog: it raises.  The payload with the default
    field types, which have no type for the id field: it raises. *)
Lemma save_returns_exactly_when_witness :
  (exists e, _save (ObjectDataset ∅ true) (Some given_payload) (Some given_types)
               (nothing_survived, ([] : world)) = (Raise e, (nothing_survived, []))) /\
  (exists s, _save (DictDataset ∅) (Some given_payload) (Some given_types)
               (nothing_survived, ([] : world)) = (Ok s, (nothing_survived, []))) /\
  (exists e, _save halos_dict None None
               (on_dataset halos_dict two_survivors, ([] : world))
             = (Raise e, (on_dataset halos_dict two_survivors, []))) /\
  (exists e, _save (DictDataset ∅) (Some given_payload) None
               (nothing_survived, ([] : world)) = (Raise e, (nothing_survived, []))).
Proof.
  split; [| split; [| split]].
  - apply (proj2 (save_returns_exactly_when (ObjectDataset ∅ true) (Some given_payload)
                    (Some given_types) nothing_survived [])).
    intros [[b HN] _]. inversion HN as [| | attributes with_arr b' E]; subst.
    discriminate E.
  - apply (proj1 (save_returns_exactly_when (DictDataset ∅) (Some given_payload)
                    (Some given_types) nothing_survived [])).
    split; [exists None; apply UnnamedDict; reflexivity |].
    split; [eexists; vm_compute; reflexivity |].
    refine (proj1 (untyped_field_none given_payload given_types) _).
    vm_compute. reflexivity.
  - apply (proj2 (save_returns_exactly_when halos_dict None None
                    (on_dataset halos_dict two_survivors) [])).
    intros (_ & (cat & Hc & _ & Harr) & _). injection Hc as <-.
    discriminate (Harr ltac:(discriminate) ltac:(discriminate)).
  - apply (proj2 (save_returns_exactly_when (DictDataset ∅) (Some given_payload) None
                    nothing_survived [])).
    intros (_ & _ & HT).
    destruct (HT "particle_identifier" ltac:(eexists; vm_compute; reflexivity)) as [t Ht].
    vm_compute in Ht. discriminate Ht.
Defined.

Example dict_in_place_of_catalog_raises :
  (_save halos_dict None None (on_dataset halos_dict two_survivors, ([] : world))).1
  = Raise (AttributeError "arr").
Proof. vm_compute. reflexivity. Qed.



(** A run that retains targets, then a second run. *)
Lemma runs_do_not_accumulate_witness :
  let first := _run true false (massive_halos, []) in
  (exists cat, catalog first.2.1 = Some cat /\ List.length cat = 3) /\
  _run true false (first.2.1, first.2.2) = _run true false (massive_halos, first.2.2) /\
  (catalog (_run true false (first.2.1, first.2.2)).2.1 = catalog first.2.1).
Proof.
  intros first.
  split; [eexists; split; vm_compute; reflexivity |].
  split; [| vm_compute; reflexivity].
  exact (proj1 (runs_do_not_accumulate true false massive_halos first.2.1 [] first.2.2
                  first.1 eq_refl) false first.2.2).
Defined.

(** Halo 2: a mass of 15 and a radius of 3 m, stored as 300 cm. *)
Lemma field_quantities_copy_chunk_witness :
  let fields := [("particle_mass", FieldTuple "halos" "particle_mass");
                 ("virial_radius", FieldTuple "halos" "virial_radius")] in
  actions from_fields = field_entries fields /\
  NoDup (map fst fields) /\
  Forall (fun kr => exists col v, five_halos kr.2 = Some col /\ col !! 2 = Some v) fields /\
  catalog from_fields = Some [] /\
  (_process_target 2 2 false (Some five_halos) (from_fields, ([] : world)))
  = (Ok tt,
     (set_catalog
        (Some [ {[ "particle_mass" := VInt 15; "virial_radius" := VLength 300 cm ]} ])
        from_fields, [])) /\
  exists m,
    _process_target 2 2 false (Some five_halos) (from_fields, ([] : world))
      = (Ok tt, (set_catalog (Some ([] ++ [m])) from_fields, [])) /\
    (forall key ref, (key, ref) ∈ fields ->
       exists col v, five_halos ref = Some col /\ col !! 2 = Some v /\
                     m !! key = Some (if has_units v then convert_to_base v else v)) /\
    (forall key, key ∉ map fst fields -> m !! key = None).
Proof.
  intros fields.
  assert (Hnd : NoDup (map fst fields)).
  { apply (bool_decide_unpack _). vm_compute. exact I. }
  assert (HF : Forall (fun kr => exists col v,
                         five_halos kr.2 = Some col /\ col !! 2 = Some v) fields).
  { repeat constructor; eexists _, _; split; reflexivity. }
  split; [reflexivity |]. split; [exact Hnd |]. split; [exact HF |].
  split; [reflexivity |]. split; [vm_compute; reflexivity |].
  exact (field_quantities_copy_chunk five_halos 2 fields from_fields [] []
           eq_refl Hnd HF eq_refl).
Defined.
